(** * rljax: replay buffer and algorithm base classes

    A shallow embedding of [rljax/common/buffer.py] (class [ReplayBuffer])
    and of [rljax/algorithm/base.py] (classes [Algorithm],
    [OnPolicyActorCritic], [OffPolicyAlgorithm]), with the properties the
    specification states about them.

    Python integers are [Z] (or [nat] where the code only ever holds a
    count or an index), Python exceptions are the constructors of [exn],
    a method that mutates [self] is a function in the state-and-exception
    monad [M], and numpy arrays are lists of rows tagged with their dtype
    and row shape. *)

From Stdlib Require Import ZArith QArith Lia.
From Stdlib Require Import Floats.SpecFloat.
From stdpp Require Import base option list.

Close Scope Q_scope.
Open Scope nat_scope.

(** ** Python exceptions and the method monad *)

Inductive exn : Set :=
| ValueError
| IndexError
| AttributeError
| AssertionError
| ZeroDivisionError.

Inductive result (A : Type) : Type :=
| Ok (a : A)
| Raise (e : exn).
Arguments Ok {A} a.
Arguments Raise {A} e.

Definition is_Ok {A} (r : result A) : bool :=
  match r with Ok _ => true | Raise _ => false end.

(** A method of an object of type [S]: it returns the object as the call
    left it (also when it raises: Python does not roll back) and either a
    value or the exception raised. *)
Definition M (S A : Type) : Type := S -> S * result A.

Definition ret {S A} (a : A) : M S A := fun s => (s, Ok a).
Definition raise {S A} (e : exn) : M S A := fun s => (s, Raise e).
Definition bind {S A B} (c : M S A) (k : A -> M S B) : M S B :=
  fun s => match c s with
           | (s', Ok a) => k a s'
           | (s', Raise e) => (s', Raise e)
           end.
Definition get {S} : M S S := fun s => (s, Ok s).
Definition modify {S} (f : S -> S) : M S unit := fun s => (f s, Ok tt).
Definition lift {S A} (r : result A) : M S A := fun s => (s, r).

#[global] Instance M_ret {S} : MRet (M S) := fun A => @ret S A.
#[global] Instance M_bind {S} : MBind (M S) := fun A B k c => @bind S A B c k.

(** ** numpy: dtypes, arrays, casts and the random draw *)

Module Numpy.

Inductive dtype : Set := float32 | int64 | int32.

(** An array of shape [(length rows, *row_shape)]: its rows in order. *)
Record ndarray (A : Type) : Type := mk_ndarray {
  arr_dtype : dtype;
  row_shape : list nat;
  rows : list A
}.
Arguments mk_ndarray {A} _ _ _.
Arguments arr_dtype {A} _.
Arguments row_shape {A} _.
Arguments rows {A} _.

Definition shape {A} (a : ndarray A) : list nat :=
  length (rows a) :: row_shape a.

(** [np.empty((n, *sh), dtype)]: storage that is allocated and not
    initialised; [junk i] is whatever row [i] of the fresh memory held. *)
Definition empty {A} (n : nat) (sh : list nat) (d : dtype) (junk : nat -> A)
  : ndarray A :=
  mk_ndarray d sh (junk <$> seq 0 n).
Arguments empty : simpl never.

(** [a[i] = x] for an in-range, non-negative [i]; IndexError beyond. *)
Definition setitem {A} (a : ndarray A) (i : nat) (x : A) : result (ndarray A) :=
  if decide (i < length (rows a))
  then Ok (mk_ndarray (arr_dtype a) (row_shape a) (<[i := x]> (rows a)))
  else Raise IndexError.

(** [a[idxes]] for an integer index array: the rows gathered in the order
    of [idxes], IndexError when one index is out of range. *)
Fixpoint gather {A} (l : list A) (idxes : list nat) : result (list A) :=
  match idxes with
  | [] => Ok []
  | i :: rest =>
      match l !! i with
      | None => Raise IndexError
      | Some x =>
          match gather l rest with
          | Ok xs => Ok (x :: xs)
          | Raise e => Raise e
          end
      end
  end.

Definition getitem {A} (a : ndarray A) (idxes : list nat) : result (ndarray A) :=
  match gather (rows a) idxes with
  | Ok xs => Ok (mk_ndarray (arr_dtype a) (row_shape a) xs)
  | Raise e => Raise e
  end.

(** Python floats are binary64, float32 cells are binary32; storing a
    Python float into a float32 array rounds to nearest even. *)
Definition f64 : Type := spec_float.
Definition f32 : Type := spec_float.

Definition to_float32 (x : f64) : f32 :=
  match x with
  | S754_finite s m e => binary_round 24 128 s m e
  | _ => x
  end.

Definition one32 : f32 := S754_finite false 8388608 (-23).
Definition zero32 : f32 := S754_zero false.

(** jax holds no 64-bit types unless they are switched on, and nothing in
    the sources switches them on: an int64 array put on the device becomes
    an int32 array, every entry wrapped to 32 bits.  [int32_of] is that
    cast on one row. *)
Class Int32Cast (A : Type) : Type := int32_of : A → A.

Definition wrap_int32 (z : Z) : Z :=
  ((z + 2147483648) mod 4294967296 - 2147483648)%Z.

#[global] Instance Z_Int32Cast : Int32Cast Z := wrap_int32.

(** [jax.device_put(a)]: an int64 array comes back as int32, its rows
    cast by [cast]; a float32 (or int32) array comes back as it is. *)
Definition device_put {A} (cast : A → A) (a : ndarray A) : ndarray A :=
  match arr_dtype a with
  | int64 => mk_ndarray int32 (row_shape a) (cast <$> rows a)
  | _ => a
  end.

(** All the index arrays of length [k] over the values [vals]. *)
Fixpoint vectors {A} (vals : list A) (k : nat) : list (list A) :=
  match k with
  | 0 => [[]]
  | S k' => vals ≫= (λ v, cons v <$> vectors vals k')
  end.

(** [np.random.randint(low, high, size)], discrete uniform on
    [[low, high)]: the result is the list of the equally likely index
    arrays.  No sample is taken for [size = 0], then an empty range is
    accepted; otherwise an empty range is a ValueError
    ("low >= high"). *)
Definition randint (low high size : nat) : result (list (list nat)) :=
  if decide (size = 0) then Ok [[]]
  else if decide (high <= low) then Raise ValueError
  else Ok (vectors (seq low (high - low)) size).

End Numpy.

(** ** Python's [float()] on the values [append] receives *)

Definition float_of_bool (b : bool) : Numpy.f64 :=
  if b then S754_finite false 4503599627370496 (-52) else S754_zero false.

(** The reward an environment returns is a Python float already. *)
Definition float_of_float (x : Numpy.f64) : Numpy.f64 := x.

(** ** gym spaces *)

Module Gym.

Inductive Space : Set :=
| Box (shape : list nat)
| Discrete (n : nat)
| MultiDiscrete (nvec : list nat)
| MultiBinary (n : nat).

Definition shape (s : Space) : list nat :=
  match s with
  | Box sh => sh
  | Discrete _ => []
  | MultiDiscrete nvec => [length nvec]
  | MultiBinary n => [n]
  end.

(** What the algorithms use of an environment object whose state is [E]:
    [env.reset()], [env.step(action)], the attribute
    [env._max_episode_steps] and [env.action_space.sample()].  Each call
    returns the environment as it left it. *)
Record Env (E Obs Act Reward Info : Type) : Type := mk_Env {
  reset : E → E * Obs;
  step : Act → E → E * (Obs * Reward * bool * Info);
  _max_episode_steps : E → Z;
  action_space_sample : E → E * Act
}.
Arguments mk_Env {E Obs Act Reward Info}.
Arguments reset {E Obs Act Reward Info}.
Arguments step {E Obs Act Reward Info}.
Arguments _max_episode_steps {E Obs Act Reward Info}.
Arguments action_space_sample {E Obs Act Reward Info}.

End Gym.

(** ** rljax/common/buffer.py *)

Module Buffer.

Import Numpy.

Section ReplayBuffer.

(** A state row is the float32 tensor of the observation shape, an action
    row the float32 tensor of a Box action or the int64 index of a Discrete
    one, as the arrays hold them. *)
Variables State Action : Type.

(** What the five [np.empty] calls find in the memory they are handed. *)
Record Uninit : Type := mk_Uninit {
  junk_state : nat -> State;
  junk_reward : nat -> f32;
  junk_done : nat -> f32;
  junk_next_state : nat -> State;
  junk_action : nat -> Action
}.

(** The attributes of a [ReplayBuffer] object.  [action] is [None] when the
    attribute was never bound. *)
Record ReplayBuffer : Type := mk_ReplayBuffer {
  _n : nat;
  _p : nat;
  buffer_size : nat;
  state : ndarray State;
  reward : ndarray f32;
  done : ndarray f32;
  next_state : ndarray State;
  action : option (ndarray Action)
}.

Definition __init__ (mem : Uninit) (buffer_size : nat)
    (state_space action_space : Gym.Space) : ReplayBuffer :=
  let _n := 0 in
  let _p := 0 in
  let state := empty buffer_size (Gym.shape state_space) float32 (junk_state mem) in
  let reward := empty buffer_size [1] float32 (junk_reward mem) in
  let done := empty buffer_size [1] float32 (junk_done mem) in
  let next_state :=
    empty buffer_size (Gym.shape state_space) float32 (junk_next_state mem) in
  match action_space with
  | Gym.Box sh =>
      mk_ReplayBuffer _n _p buffer_size state reward done next_state
        (Some (empty buffer_size sh float32 (junk_action mem)))
  | Gym.Discrete _ =>
      mk_ReplayBuffer _n _p buffer_size state reward done next_state
        (Some (empty buffer_size [1] int64 (junk_action mem)))
  | _ =>
      (* the bare expression [NotImplementedError]: evaluated, not raised *)
      mk_ReplayBuffer _n _p buffer_size state reward done next_state None
  end.

(** Attribute reads and writes. *)
Definition getattr_action (b : ReplayBuffer) : result (ndarray Action) :=
  match action b with
  | Some a => Ok a
  | None => Raise AttributeError
  end.

Definition set_state (a : ndarray State) (b : ReplayBuffer) : ReplayBuffer :=
  mk_ReplayBuffer (_n b) (_p b) (buffer_size b) a (reward b) (done b)
    (next_state b) (action b).
Definition set_action (a : ndarray Action) (b : ReplayBuffer) : ReplayBuffer :=
  mk_ReplayBuffer (_n b) (_p b) (buffer_size b) (state b) (reward b) (done b)
    (next_state b) (Some a).
Definition set_reward (a : ndarray f32) (b : ReplayBuffer) : ReplayBuffer :=
  mk_ReplayBuffer (_n b) (_p b) (buffer_size b) (state b) a (done b)
    (next_state b) (action b).
Definition set_done (a : ndarray f32) (b : ReplayBuffer) : ReplayBuffer :=
  mk_ReplayBuffer (_n b) (_p b) (buffer_size b) (state b) (reward b) a
    (next_state b) (action b).
Definition set_next_state (a : ndarray State) (b : ReplayBuffer) : ReplayBuffer :=
  mk_ReplayBuffer (_n b) (_p b) (buffer_size b) (state b) (reward b) (done b)
    a (action b).
Definition set_p (p : nat) (b : ReplayBuffer) : ReplayBuffer :=
  mk_ReplayBuffer (_n b) p (buffer_size b) (state b) (reward b) (done b)
    (next_state b) (action b).
Definition set_n (n : nat) (b : ReplayBuffer) : ReplayBuffer :=
  mk_ReplayBuffer n (_p b) (buffer_size b) (state b) (reward b) (done b)
    (next_state b) (action b).

(** [self.<field>[self._p] = x] *)
Definition store {A} (field : ReplayBuffer -> result (ndarray A))
    (update : ndarray A -> ReplayBuffer -> ReplayBuffer) (x : A)
  : M ReplayBuffer unit :=
  fun b =>
    match field b with
    | Raise e => (b, Raise e)
    | Ok arr =>
        match setitem arr (_p b) x with
        | Ok arr' => (update arr' b, Ok tt)
        | Raise e => (b, Raise e)
        end
    end.

(** Python's [%] on non-negative integers. *)
Definition py_mod (a b : nat) : result nat :=
  if decide (b = 0) then Raise ZeroDivisionError else Ok (a mod b).

Definition append (state' : State) (action' : Action) (reward' : f64)
    (done' : bool) (next_state' : State) : M ReplayBuffer unit :=
  store (fun b => Ok (state b)) set_state state';;
  store getattr_action set_action action';;
  store (fun b => Ok (reward b)) set_reward (to_float32 (float_of_float reward'));;
  store (fun b => Ok (done b)) set_done (to_float32 (float_of_bool done'));;
  store (fun b => Ok (next_state b)) set_next_state next_state';;
  b ← get;
  p ← lift (py_mod (_p b + 1) (buffer_size b));
  modify (set_p p);;
  b ← get;
  modify (set_n (Nat.min (_n b + 1) (buffer_size b))).

(** How an int64 action row is cast to int32.  The state, reward and done
    arrays are float32 from [np.empty] on, so that no cast applies to
    their rows. *)
Context {cast32 : Int32Cast Action}.

Definition Batch : Type :=
  ndarray State * ndarray Action * ndarray f32 * ndarray f32 * ndarray State.

(** The tuple [sample] returns once [idxes] is drawn. *)
Definition batch_at (b : ReplayBuffer) (idxes : list nat) : result Batch :=
  match getitem (state b) idxes with
  | Raise e => Raise e
  | Ok s =>
  match getattr_action b with
  | Raise e => Raise e
  | Ok arr =>
  match getitem arr idxes with
  | Raise e => Raise e
  | Ok a =>
  match getitem (reward b) idxes with
  | Raise e => Raise e
  | Ok r =>
  match getitem (done b) idxes with
  | Raise e => Raise e
  | Ok d =>
  match getitem (next_state b) idxes with
  | Raise e => Raise e
  | Ok s' =>
      Ok (device_put id s, device_put int32_of a, device_put id r,
          device_put id d, device_put id s')
  end end end end end end.

(** [sample] draws from numpy's global generator: its equally likely
    outcomes, each the buffer as the call left it and the value returned
    or the exception raised. *)
Definition sample (batch_size : nat) (b : ReplayBuffer)
  : list (ReplayBuffer * result Batch) :=
  match randint 0 (_n b) batch_size with
  | Raise e => [(b, Raise e)]
  | Ok draws => (λ idxes, (b, batch_at b idxes)) <$> draws
  end.

(** *** Transitions, runs of appends and what a slot holds *)

Record Transition : Type := mk_Transition {
  t_state : State;
  t_action : Action;
  t_reward : f64;
  t_done : bool;
  t_next_state : State
}.

Definition append_transition (t : Transition) : M ReplayBuffer unit :=
  append (t_state t) (t_action t) (t_reward t) (t_done t) (t_next_state t).

(** The calls [append] on each transition of [ts], in order; a raise ends the run. *)
Fixpoint appends (ts : list Transition) : M ReplayBuffer unit :=
  match ts with
  | [] => mret tt
  | t :: ts' => append_transition t;; appends ts'
  end.

Definition Row : Type := State * Action * f32 * f32 * State.

(** The row [append] leaves in the arrays for the transition [t]. *)
Definition stored (t : Transition) : Row :=
  (t_state t, t_action t, to_float32 (float_of_float (t_reward t)),
   to_float32 (float_of_bool (t_done t)), t_next_state t).

(** Slot [i] read across the five arrays. *)
Definition slot (b : ReplayBuffer) (i : nat) : option Row :=
  s ← rows (state b) !! i;
  arr ← action b;
  a ← rows arr !! i;
  r ← rows (reward b) !! i;
  d ← rows (done b) !! i;
  s' ← rows (next_state b) !! i;
  Some (s, a, r, d, s').

(** The action spaces [__init__] allocates storage for. *)
Definition supported (action_space : Gym.Space) : bool :=
  match action_space with
  | Gym.Box _ | Gym.Discrete _ => true
  | _ => false
  end.

(** Every array has [buffer_size] rows and the action storage exists. *)
Definition allocated (b : ReplayBuffer) : Prop :=
  length (rows (state b)) = buffer_size b ∧
  (∃ arr, action b = Some arr ∧ length (rows arr) = buffer_size b) ∧
  length (rows (reward b)) = buffer_size b ∧
  length (rows (done b)) = buffer_size b ∧
  length (rows (next_state b)) = buffer_size b.

(** The data-model invariant on cursor and fill count. *)
Definition in_bounds (b : ReplayBuffer) : Prop :=
  _p b < buffer_size b ∧ _n b ≤ buffer_size b.

(** [b] is what the appends of [h], oldest first, leave in a buffer: the
    cursor and the fill count follow the number of appends, and each of the
    last [buffer_size] transitions sits in the slot of its step number. *)
Definition tracks (b : ReplayBuffer) (h : list Transition) : Prop :=
  allocated b ∧
  1 ≤ buffer_size b ∧
  _p b = length h mod buffer_size b ∧
  _n b = Nat.min (length h) (buffer_size b) ∧
  ∀ j, length h - buffer_size b ≤ j < length h →
       slot b (j mod buffer_size b) = stored <$> h !! j.

End ReplayBuffer.

Arguments mk_Uninit {State Action}.
Arguments mk_ReplayBuffer {State Action}.
Arguments mk_Transition {State Action}.
Arguments _n {State Action}.
Arguments _p {State Action}.
Arguments buffer_size {State Action}.
Arguments state {State Action}.
Arguments reward {State Action}.
Arguments done {State Action}.
Arguments next_state {State Action}.
Arguments action {State Action}.
Arguments __init__ {State Action}.
Arguments getattr_action {State Action}.
Arguments store {State Action A}.
Arguments append {State Action}.
Arguments append_transition {State Action}.
Arguments appends {State Action}.
Arguments batch_at {State Action cast32}.
Arguments sample {State Action cast32}.
Arguments stored {State Action}.
Arguments slot {State Action}.
Arguments allocated {State Action}.
Arguments in_bounds {State Action}.
Arguments tracks {State Action}.
Arguments t_state {State Action}.
Arguments t_action {State Action}.
Arguments t_reward {State Action}.
Arguments t_done {State Action}.
Arguments t_next_state {State Action}.

End Buffer.

(** ** rljax/algorithm/base.py *)

(** Python's [%] and [/] on integers. *)
Definition py_modZ (a b : Z) : result Z :=
  if (b =? 0)%Z then Raise ZeroDivisionError else Ok (a mod b)%Z.

Definition py_truediv (a b : Z) : result Q :=
  if (b =? 0)%Z then Raise ZeroDivisionError
  else Ok (Qdiv (inject_Z a) (inject_Z b)).

(** Truth value of an optional argument: [None] and zero are false. *)
Definition truthy_int (x : option Z) : bool :=
  match x with
  | Some z => negb (z =? 0)%Z
  | None => false
  end.

Definition truthy_float (x : option Q) : bool :=
  match x with
  | Some q => negb (Qeq_bool q 0)
  | None => false
  end.

Module Algorithm.

Section Algorithm.

(** [Rng] is a haiku [PRNGSequence], [Tensor] a sample of a space with the
    batch axis added. *)
Variables Rng Tensor : Type.
Variable PRNGSequence : Z → Rng.
Variable space_sample : Gym.Space → Tensor.
Variable astype_float32 : Tensor → Tensor.

Record obj : Type := mk_obj {
  rng : Rng;
  env_step : Z;
  learning_step : Z;
  num_steps : Z;
  state_space : Gym.Space;
  action_space : Gym.Space;
  gamma : Q;
  fake_state : Tensor;
  fake_action : option Tensor
}.

(** [np.random.seed(seed)] comes first: it raises ValueError unless
    [0 <= seed < 2^32], and otherwise seeds numpy's global generator,
    which is no attribute of the object. *)
Definition __init__ (num_steps : Z) (state_space action_space : Gym.Space)
    (seed : Z) (gamma : Q) : result obj :=
  if decide (0 ≤ seed < 4294967296)%Z then
    let fake_state := space_sample state_space in
    let fake_state :=
      if decide (length (Gym.shape state_space) = 1)
      then astype_float32 fake_state else fake_state in
    let fake_action :=
      match action_space with
      | Gym.Box _ => Some (astype_float32 (space_sample action_space))
      | _ => None
      end in
    Ok (mk_obj (PRNGSequence seed) 0 0 num_steps state_space action_space
          gamma fake_state fake_action)
  else Raise ValueError.

Definition set_env_step (n : Z) (self : obj) : obj :=
  mk_obj (rng self) n (learning_step self) (num_steps self) (state_space self)
    (action_space self) (gamma self) (fake_state self) (fake_action self).

Definition set_rng (r : Rng) (self : obj) : obj :=
  mk_obj r (env_step self) (learning_step self) (num_steps self)
    (state_space self) (action_space self) (gamma self) (fake_state self)
    (fake_action self).

End Algorithm.

Arguments mk_obj {Rng Tensor}.
Arguments rng {Rng Tensor}.
Arguments env_step {Rng Tensor}.
Arguments learning_step {Rng Tensor}.
Arguments num_steps {Rng Tensor}.
Arguments state_space {Rng Tensor}.
Arguments action_space {Rng Tensor}.
Arguments gamma {Rng Tensor}.
Arguments fake_state {Rng Tensor}.
Arguments fake_action {Rng Tensor}.
Arguments __init__ {Rng Tensor}.
Arguments set_env_step {Rng Tensor}.
Arguments set_rng {Rng Tensor}.

End Algorithm.

Module OnPolicyActorCritic.

Section OnPolicyActorCritic.

Variables Rng Tensor Key Params : Type.
Variables E Obs Act Reward Info LogPi : Type.
Variable PRNGSequence : Z → Rng.
Variable space_sample : Gym.Space → Tensor.
Variable astype_float32 : Tensor → Tensor.

(** [next(self.rng)] *)
Variable next : Rng → Key * Rng.

(** The abstract method [_explore(params_actor, rng, state)]. *)
Variable _explore : Params → Key → Obs → Act * LogPi.

(** [rljax.buffer.RolloutBuffer], which is not among the sources: its
    constructor and its
    [append(state, action, reward, mask, log_pi, next_state)]. *)
Variable RolloutBuffer : Type.
Variable RolloutBuffer_init : Z → Gym.Space → Gym.Space → RolloutBuffer.
Variable RolloutBuffer_append :
  RolloutBuffer → Obs → Act → Reward → bool → LogPi → Obs → RolloutBuffer.

Record obj : Type := mk_obj {
  super : Algorithm.obj Rng Tensor;
  buffer : RolloutBuffer;
  discount : Q;
  buffer_size : Z;
  batch_size : Z;
  (** bound by the concrete subclass *)
  params_actor : Params
}.

Definition __init__ (params_actor : Params) (num_steps : Z)
    (state_space action_space : Gym.Space) (seed : Z) (gamma : Q)
    (buffer_size batch_size : Z) : result obj :=
  match
    Algorithm.__init__ PRNGSequence space_sample astype_float32 num_steps
      state_space action_space seed gamma
  with
  | Raise e => Raise e
  | Ok super =>
      Ok (mk_obj super (RolloutBuffer_init buffer_size state_space action_space)
            gamma buffer_size batch_size params_actor)
  end.

Definition set_super (a : Algorithm.obj Rng Tensor) (self : obj) : obj :=
  mk_obj a (buffer self) (discount self) (buffer_size self) (batch_size self)
    (params_actor self).

Definition set_buffer (b : RolloutBuffer) (self : obj) : obj :=
  mk_obj (super self) b (discount self) (buffer_size self) (batch_size self)
    (params_actor self).

Definition env_step (self : obj) : Z := Algorithm.env_step (super self).

Definition explore (self : obj) (state : Obs) : obj * (Act * LogPi) :=
  let '(key, rng') := next (Algorithm.rng (super self)) in
  let '(action, log_pi) := _explore (params_actor self) key state in
  (set_super (Algorithm.set_rng rng' (super self)) self, (action, log_pi)).

Definition is_update (self : obj) : result bool :=
  match py_modZ (env_step self) (buffer_size self) with
  | Ok m => Ok (m =? 0)%Z
  | Raise e => Raise e
  end.

Definition step (env : Gym.Env E Obs Act Reward Info) (self : obj) (e : E)
    (state : Obs) (t : Z) : obj * E * (Obs * Z) :=
  let t := (t + 1)%Z in
  let self :=
    set_super (Algorithm.set_env_step (env_step self + 1)%Z (super self)) self in
  let '(self, (action, log_pi)) := explore self state in
  let '(e, (next_state, reward, done, _)) := Gym.step env action e in
  let mask := if (t =? Gym._max_episode_steps env e)%Z then false else done in
  let self :=
    set_buffer
      (RolloutBuffer_append (buffer self) state action reward mask log_pi
         next_state) self in
  if done then
    let t := 0%Z in
    let '(e, next_state) := Gym.reset env e in
    (self, e, (next_state, t))
  else (self, e, (next_state, t)).

(** The abstract method [_select_action(params_actor, state)]. *)
Variable _select_action : Params → Obs → Act.

Definition select_action (self : obj) (state : Obs) : Act :=
  _select_action (params_actor self) state.

(** The trainer's calls [state, t = algo.step(env, state, t)], [k] of
    them in a row. *)
Fixpoint steps (k : nat) (env : Gym.Env E Obs Act Reward Info) (self : obj)
    (e : E) (state : Obs) (t : Z) : obj * E * (Obs * Z) :=
  match k with
  | 0 => (self, e, (state, t))
  | S k' =>
      let '(self, e, (state, t)) := steps k' env self e state t in
      step env self e state t
  end.

End OnPolicyActorCritic.

Arguments select_action {Rng Tensor Params Obs Act RolloutBuffer}
  _select_action.
Arguments steps {Rng Tensor Key Params E Obs Act Reward Info LogPi} next
  _explore {RolloutBuffer} RolloutBuffer_append.
Arguments mk_obj {Rng Tensor Params RolloutBuffer}.
Arguments super {Rng Tensor Params RolloutBuffer}.
Arguments buffer {Rng Tensor Params RolloutBuffer}.
Arguments discount {Rng Tensor Params RolloutBuffer}.
Arguments buffer_size {Rng Tensor Params RolloutBuffer}.
Arguments batch_size {Rng Tensor Params RolloutBuffer}.
Arguments params_actor {Rng Tensor Params RolloutBuffer}.
Arguments __init__ {Rng Tensor Params} PRNGSequence space_sample
  astype_float32 {RolloutBuffer} RolloutBuffer_init.
Arguments set_super {Rng Tensor Params RolloutBuffer}.
Arguments set_buffer {Rng Tensor Params RolloutBuffer}.
Arguments env_step {Rng Tensor Params RolloutBuffer}.
Arguments explore {Rng Tensor Key Params Obs Act LogPi} next _explore
  {RolloutBuffer}.
Arguments is_update {Rng Tensor Params RolloutBuffer}.
Arguments step {Rng Tensor Key Params E Obs Act Reward Info LogPi} next
  _explore {RolloutBuffer} RolloutBuffer_append.

End OnPolicyActorCritic.

Module OffPolicyAlgorithm.

Section OffPolicyAlgorithm.

Variables Rng Tensor Policy : Type.
Variables E Obs Act Reward Info : Type.
Variable PRNGSequence : Z → Rng.
Variable space_sample : Gym.Space → Tensor.
Variable astype_float32 : Tensor → Tensor.

(** The abstract method [explore(state)].  [Policy] is what a concrete
    subclass adds to the object (parameters, exploration rate); the
    subclasses of this file read it and advance a random stream, and
    assign no attribute of this class. *)
Variable explore : Policy → Rng → Obs → Policy * Rng * Act.

(** [rljax.buffer.PrioritizedReplayBuffer] and [rljax.buffer.ReplayBuffer],
    which are not among the sources: the two constructors as [__init__]
    calls them, and
    [append(state, action, reward, mask, next_state, done)]. *)
Variable Buffer : Type.
Variable PrioritizedReplayBuffer_init :
  Z → Gym.Space → Gym.Space → Q → nat → Q → result Buffer.
Variable ReplayBuffer_init :
  Z → Gym.Space → Gym.Space → Q → nat → result Buffer.
Variable Buffer_append :
  Buffer → Obs → Act → Reward → bool → Obs → bool → Buffer.

Record obj : Type := mk_obj {
  super : Algorithm.obj Rng Tensor;
  buffer : Buffer;
  discount : Q;
  use_per : bool;
  batch_size : Z;
  start_steps : Z;
  update_interval : Z;
  (** [None]: the attribute is not bound *)
  update_interval_target : option Z;
  (** the [tau] bound in [partial(soft_update, tau=...)] *)
  _update_target : option Q;
  policy : Policy
}.

Definition __init__ (policy : Policy) (num_steps : Z)
    (state_space action_space : Gym.Space) (seed : Z) (gamma : Q) (nstep : nat)
    (buffer_size : Z) (use_per : bool) (batch_size start_steps update_interval : Z)
    (update_interval_target : option Z) (tau : option Q) : result obj :=
  if negb (truthy_int update_interval_target || truthy_float tau)
  then Raise AssertionError
  else
    match
      Algorithm.__init__ PRNGSequence space_sample astype_float32 num_steps
        state_space action_space seed gamma
    with
    | Raise e => Raise e
    | Ok super =>
    let buffer :=
      if use_per then
        match py_truediv (num_steps - start_steps) update_interval with
        | Ok beta_steps =>
            PrioritizedReplayBuffer_init buffer_size state_space action_space
              gamma nstep beta_steps
        | Raise e => Raise e
        end
      else
        ReplayBuffer_init buffer_size state_space action_space gamma nstep in
    match buffer with
    | Raise e => Raise e
    | Ok buffer =>
        let discount := Qpower gamma (Z.of_nat nstep) in
        if truthy_int update_interval_target then
          Ok (mk_obj super buffer discount use_per batch_size start_steps
                update_interval update_interval_target (Some 1%Q) policy)
        else
          Ok (mk_obj super buffer discount use_per batch_size start_steps
                update_interval None tau policy)
    end
    end.

Definition set_super (a : Algorithm.obj Rng Tensor) (self : obj) : obj :=
  mk_obj a (buffer self) (discount self) (use_per self) (batch_size self)
    (start_steps self) (update_interval self) (update_interval_target self)
    (_update_target self) (policy self).

Definition set_buffer (b : Buffer) (self : obj) : obj :=
  mk_obj (super self) b (discount self) (use_per self) (batch_size self)
    (start_steps self) (update_interval self) (update_interval_target self)
    (_update_target self) (policy self).

Definition set_policy (p : Policy) (self : obj) : obj :=
  mk_obj (super self) (buffer self) (discount self) (use_per self)
    (batch_size self) (start_steps self) (update_interval self)
    (update_interval_target self) (_update_target self) p.

Definition env_step (self : obj) : Z := Algorithm.env_step (super self).

(** [a and b] evaluates [a] first; here both operands are comparisons. *)
Definition is_update (self : obj) : result bool :=
  match py_modZ (env_step self) (update_interval self) with
  | Ok m => Ok ((m =? 0)%Z && (start_steps self <=? env_step self)%Z)
  | Raise e => Raise e
  end.

(** [self.explore(state)] as a call on the object. *)
Definition call_explore (self : obj) (state : Obs) : obj * Act :=
  let '(p, r, action) := explore (policy self) (Algorithm.rng (super self)) state in
  (set_policy p (set_super (Algorithm.set_rng r (super self)) self), action).

(** The statements of [step] after the action is chosen: the environment
    step, the mask, the append and the end of an episode. *)
Definition step_with (env : Gym.Env E Obs Act Reward Info) (self : obj) (e : E)
    (state : Obs) (t : Z) (action : Act) : obj * E * (Obs * Z) :=
  let '(e, (next_state, reward, done, _)) := Gym.step env action e in
  let mask := if (t =? Gym._max_episode_steps env e)%Z then false else done in
  let self :=
    set_buffer
      (Buffer_append (buffer self) state action reward mask next_state done)
      self in
  if done then
    let t := 0%Z in
    let '(e, next_state) := Gym.reset env e in
    (self, e, (next_state, t))
  else (self, e, (next_state, t)).

Definition step (env : Gym.Env E Obs Act Reward Info) (self : obj) (e : E)
    (state : Obs) (t : Z) : obj * E * (Obs * Z) :=
  let t := (t + 1)%Z in
  let self :=
    set_super (Algorithm.set_env_step (env_step self + 1)%Z (super self)) self in
  if (env_step self <=? start_steps self)%Z then
    let '(e, action) := Gym.action_space_sample env e in
    step_with env self e state t action
  else
    let '(self, action) := call_explore self state in
    step_with env self e state t action.

(** The trainer's calls [state, t = algo.step(env, state, t)], [k] of
    them in a row. *)
Fixpoint steps (k : nat) (env : Gym.Env E Obs Act Reward Info) (self : obj)
    (e : E) (state : Obs) (t : Z) : obj * E * (Obs * Z) :=
  match k with
  | 0 => (self, e, (state, t))
  | S k' =>
      let '(self, e, (state, t)) := steps k' env self e state t in
      step env self e state t
  end.

End OffPolicyAlgorithm.

Arguments mk_obj {Rng Tensor Policy Buffer}.
Arguments super {Rng Tensor Policy Buffer}.
Arguments buffer {Rng Tensor Policy Buffer}.
Arguments discount {Rng Tensor Policy Buffer}.
Arguments use_per {Rng Tensor Policy Buffer}.
Arguments batch_size {Rng Tensor Policy Buffer}.
Arguments start_steps {Rng Tensor Policy Buffer}.
Arguments update_interval {Rng Tensor Policy Buffer}.
Arguments update_interval_target {Rng Tensor Policy Buffer}.
Arguments _update_target {Rng Tensor Policy Buffer}.
Arguments policy {Rng Tensor Policy Buffer}.
Arguments __init__ {Rng Tensor Policy} PRNGSequence space_sample
  astype_float32 {Buffer} PrioritizedReplayBuffer_init ReplayBuffer_init.
Arguments set_super {Rng Tensor Policy Buffer}.
Arguments set_buffer {Rng Tensor Policy Buffer}.
Arguments set_policy {Rng Tensor Policy Buffer}.
Arguments env_step {Rng Tensor Policy Buffer}.
Arguments is_update {Rng Tensor Policy Buffer}.
Arguments call_explore {Rng Tensor Policy Obs Act} explore {Buffer}.
Arguments step_with {Rng Tensor Policy E Obs Act Reward Info Buffer}
  Buffer_append.
Arguments step {Rng Tensor Policy E Obs Act Reward Info} explore {Buffer}
  Buffer_append.
Arguments steps {Rng Tensor Policy E Obs Act Reward Info} explore {Buffer}
  Buffer_append.

End OffPolicyAlgorithm.

Module OffPolicyActorCritic.

Section OffPolicyActorCritic.

Variables Rng Tensor Key Params Obs Act Buffer : Type.
Variable PRNGSequence : Z → Rng.
Variable space_sample : Gym.Space → Tensor.
Variable astype_float32 : Tensor → Tensor.
Variable PrioritizedReplayBuffer_init :
  Z → Gym.Space → Gym.Space → Q → nat → Q → result Buffer.
Variable ReplayBuffer_init :
  Z → Gym.Space → Gym.Space → Q → nat → result Buffer.

(** [next(self.rng)] and the abstract methods
    [_select_action(params_actor, state)] and
    [_explore(params_actor, rng, state)]. *)
Variable next : Rng → Key * Rng.
Variable _select_action : Params → Obs → Act.
Variable _explore : Params → Key → Obs → Act.

(** What the class adds to [OffPolicyAlgorithm] is the attribute
    [params_actor], bound by the concrete subclass; [__init__] hands every
    argument to the base class. *)
Definition __init__ (params_actor : Params) (num_steps : Z)
    (state_space action_space : Gym.Space) (seed : Z) (gamma : Q) (nstep : nat)
    (buffer_size : Z) (use_per : bool) (batch_size start_steps update_interval : Z)
    (update_interval_target : option Z) (tau : option Q)
  : result (OffPolicyAlgorithm.obj Rng Tensor Params Buffer) :=
  OffPolicyAlgorithm.__init__ PRNGSequence space_sample astype_float32
    PrioritizedReplayBuffer_init ReplayBuffer_init params_actor num_steps
    state_space action_space seed gamma nstep buffer_size use_per batch_size
    start_steps update_interval update_interval_target tau.

Definition select_action (params_actor : Params) (state : Obs) : Act :=
  _select_action params_actor state.

(** [explore] as [OffPolicyAlgorithm.step] calls it: on the subclass
    attributes and the random stream. *)
Definition explore (params_actor : Params) (rng : Rng) (state : Obs)
  : Params * Rng * Act :=
  let '(key, rng) := next rng in
  (params_actor, rng, _explore params_actor key state).

End OffPolicyActorCritic.

Arguments __init__ {Rng Tensor Params Buffer} PRNGSequence space_sample
  astype_float32 PrioritizedReplayBuffer_init ReplayBuffer_init.
Arguments select_action {Params Obs Act} _select_action.
Arguments explore {Rng Key Params Obs Act} next _explore.

End OffPolicyActorCritic.

Module QLearning.

Section QLearning.

Variables Rng Tensor Params Obs Act Buffer G : Type.
Variable PRNGSequence : Z → Rng.
Variable space_sample : Gym.Space → Tensor.
Variable astype_float32 : Tensor → Tensor.
Variable PrioritizedReplayBuffer_init :
  Z → Gym.Space → Gym.Space → Q → nat → Q → result Buffer.
Variable ReplayBuffer_init :
  Z → Gym.Space → Gym.Space → Q → nat → result Buffer.

(** [G] is the state of numpy's generators.  [rand] is
    [np.random.rand()], [sample_action] is [self.action_space.sample()];
    each returns the generators as it left them. *)
Variable rand : G → Q * G.
Variable sample_action : G → Act * G.

(** The abstract method [_forward(params, state)]. *)
Variable _forward : Params → Obs → Act.

(** What the class and its concrete subclass add to [OffPolicyAlgorithm]:
    the two exploration rates, the parameters [forward] reads, and the
    generators its methods draw from. *)
Record attrs : Type := mk_attrs {
  eps : Q;
  eps_eval : Q;
  params : Params;
  np_random : G
}.

Definition set_np_random (g : G) (self : attrs) : attrs :=
  mk_attrs (eps self) (eps_eval self) (params self) g.

(** The base class is called without [tau]. *)
Definition __init__ (params : Params) (g : G) (num_steps : Z)
    (state_space action_space : Gym.Space) (seed : Z) (gamma : Q) (nstep : nat)
    (buffer_size : Z) (use_per : bool) (batch_size start_steps update_interval : Z)
    (update_interval_target : option Z) (eps eps_eval : Q)
  : result (OffPolicyAlgorithm.obj Rng Tensor attrs Buffer) :=
  OffPolicyAlgorithm.__init__ PRNGSequence space_sample astype_float32
    PrioritizedReplayBuffer_init ReplayBuffer_init
    (mk_attrs eps eps_eval params g) num_steps state_space action_space seed
    gamma nstep buffer_size use_per batch_size start_steps update_interval
    update_interval_target None.

Definition forward (self : attrs) (state : Obs) : Act :=
  _forward (params self) state.

Definition select_action (self : attrs) (state : Obs) : attrs * Act :=
  let '(u, g) := rand (np_random self) in
  if Qlt_le_dec u (eps_eval self) then
    let '(action, g) := sample_action g in
    (set_np_random g self, action)
  else (set_np_random g self, forward self state).

Definition explore (self : attrs) (rng : Rng) (state : Obs)
  : attrs * Rng * Act :=
  let '(u, g) := rand (np_random self) in
  if Qlt_le_dec u (eps self) then
    let '(action, g) := sample_action g in
    (set_np_random g self, rng, action)
  else (set_np_random g self, rng, forward self state).

End QLearning.

Arguments mk_attrs {Params G}.
Arguments eps {Params G}.
Arguments eps_eval {Params G}.
Arguments params {Params G}.
Arguments np_random {Params G}.
Arguments set_np_random {Params G}.
Arguments __init__ {Rng Tensor Params Buffer G} PRNGSequence space_sample
  astype_float32 PrioritizedReplayBuffer_init ReplayBuffer_init.
Arguments forward {Params Obs Act G} _forward.
Arguments select_action {Params Obs Act G} rand sample_action _forward.
Arguments explore {Rng Params Obs Act G} rand sample_action _forward.

End QLearning.

(** ** Concrete runs *)

Module Examples.

Import Numpy Buffer.

Definition mem0 : Uninit nat Z :=
  mk_Uninit (fun _ => 0) (fun _ => S754_nan) (fun _ => S754_nan)
    (fun _ => 0) (fun _ => 0%Z).

Definition tr (k : nat) : Transition nat Z :=
  mk_Transition k (Z.of_nat k) (S754_zero false) false (S k).

Definition b5 : ReplayBuffer nat Z := __init__ mem0 5 (Gym.Box [3]) (Gym.Discrete 4).

(** [b5] after the appends of [tr 1] and [tr 2]. *)
Definition b5_two : ReplayBuffer nat Z := (appends [tr 1; tr 2] b5).1.

(** The tuple of five arrays with no rows that [b5] yields for no index. *)
Definition no_rows : Batch nat Z :=
  (mk_ndarray float32 [3] [], mk_ndarray int32 [1] [],
   mk_ndarray float32 [1] [], mk_ndarray float32 [1] [],
   mk_ndarray float32 [3] []).

(** A transition whose action index does not fit in 32 bits, and [b5]
    after its append. *)
Definition tr_big : Transition nat Z :=
  mk_Transition 1 1099511627781%Z (S754_zero false) false 2.

Definition b5_big : ReplayBuffer nat Z := (appends [tr_big] b5).1.




(** A three-step episode on a counter, a policy that echoes the state,
    and a buffer that counts its appends. *)
Definition toy_env : Gym.Env Z Z Z Z unit :=
  Gym.mk_Env
    (λ e, (e, 0%Z))
    (λ _ e, ((e + 1)%Z, ((e + 1)%Z, 1%Z, ((e + 1) mod 3 =? 0)%Z, tt)))
    (λ _, 200%Z)
    (λ e, (e, 7%Z)).

Definition toy_explore (p : unit) (rng : Z) (state : Z) : unit * Z * Z :=
  (p, (rng + 1)%Z, state).

Definition toy_append (b : Z) (_ _ _ : Z) (_ : bool) (_ : Z) (_ : bool) : Z :=
  (b + 1)%Z.

(** An off-policy object one step short of [start_steps = 2]. *)
Definition toy_off : OffPolicyAlgorithm.obj Z unit unit Z :=
  OffPolicyAlgorithm.mk_obj
    (Algorithm.mk_obj 0%Z 1%Z 0%Z 100%Z (Gym.Box [1]) (Gym.Box [1]) 1%Q tt None)
    0%Z 1%Q false 32%Z 2%Z 2%Z None (Some (1 # 200)%Q) tt.

(** A generator whose every draw is one half, an action space whose every
    sample is 7, a network that echoes the state, and Q-learning
    attributes with [eps = 0] and [eps_eval = 1]. *)
Definition toy_rand (g : unit) : Q * unit := ((1 # 2)%Q, g).
Definition toy_sample (g : unit) : Z * unit := (7%Z, g).
Definition toy_forward (params : unit) (state : Z) : Z := state.
Definition toy_q : QLearning.attrs unit unit := QLearning.mk_attrs 0%Q 1%Q tt tt.

End Examples.

(** * Properties of the numpy model *)

Module NumpyTheory.

Import Numpy.

Lemma elem_of_vectors {A} (vals : list A) (k : nat) (v : list A) :
  v ∈ vectors vals k ↔ length v = k ∧ Forall (λ x, x ∈ vals) v.
Proof.
  revert v. induction k as [|k IH]; intros v; simpl.
  - rewrite list_elem_of_singleton. split.
    + intros ->. split; [done|constructor].
    + intros [Hl _]. by destruct v.
  - rewrite list_elem_of_bind. split.
    + intros (x & Hv & Hx). apply list_elem_of_fmap in Hv as (w & -> & Hw).
      apply IH in Hw as [Hl Hall]. split; [simpl; lia|by constructor].
    + intros [Hl Hall]. destruct v as [|x w]; [done|].
      inversion Hall; subst. exists x. split; [|done].
      apply list_elem_of_fmap. exists w. split; [done|].
      apply IH. split; [simpl in Hl; lia|done].
Qed.

Lemma length_vectors {A} (vals : list A) (k : nat) :
  length (vectors vals k) = length vals ^ k.
Proof.
  induction k as [|k IH]; simpl; [done|].
  assert (∀ l : list A,
            length (l ≫= (λ v, cons v <$> vectors vals k)) =
            length l * length vals ^ k) as Hbind.
  { induction l as [|x l IHl]; [done|].
    rewrite bind_cons, length_app, length_fmap, IHl, IH. simpl. lia. }
  apply Hbind.
Qed.

Lemma NoDup_vectors {A} (vals : list A) (k : nat) :
  NoDup vals → NoDup (vectors vals k).
Proof.
  intros Hnd. induction k as [|k IH]; simpl.
  - apply NoDup_singleton.
  - apply NoDup_bind; [| |done].
    + intros x1 x2 y _ _ H1 H2.
      apply list_elem_of_fmap in H1 as (w1 & -> & _).
      apply list_elem_of_fmap in H2 as (w2 & E & _). by injection E.
    + intros x _. apply NoDup_fmap_2; [|done]. intros ?? E. by injection E.
Qed.

Lemma gather_ok {A} (l : list A) (idxes : list nat) :
  Forall (λ i, i < length l) idxes →
  ∃ xs, gather l idxes = Ok xs ∧ length xs = length idxes ∧
        ∀ k i, idxes !! k = Some i → xs !! k = l !! i.
Proof.
  induction 1 as [|i idxes Hi _ IH]; simpl.
  - exists []. split; [done|]. split; [done|]. intros k i Hk. done.
  - destruct (lookup_lt_is_Some_2 l i Hi) as [x Hx].
    destruct IH as (xs & -> & Hlen & Hxs). rewrite Hx.
    exists (x :: xs). split; [done|]. split; [simpl; lia|].
    intros [|k] j Hk; simpl in *.
    + injection Hk as <-. done.
    + by apply Hxs.
Qed.

(** For a non-empty draw from a non-empty range [randint] returns, each
    exactly once, the [(high - low) ^ size] index arrays of length [size]
    over [[low, high)]. *)
Lemma randint_uniform (low high size : nat) :
  1 ≤ size → low < high →
  ∃ draws, randint low high size = Ok draws ∧
           NoDup draws ∧
           length draws = (high - low) ^ size ∧
           ∀ idxes, idxes ∈ draws ↔
                    length idxes = size ∧ Forall (λ i, low ≤ i < high) idxes.
Proof.
  intros Hs Hr. unfold randint.
  rewrite decide_False by lia. rewrite decide_False by lia.
  eexists. split; [reflexivity|]. split; [|split].
  - apply NoDup_vectors, NoDup_seq.
  - by rewrite length_vectors, length_seq.
  - intros idxes. rewrite elem_of_vectors.
    assert (Forall (λ x, x ∈ seq low (high - low)) idxes ↔
            Forall (λ i, low ≤ i < high) idxes) as ->; [|done].
    rewrite !Forall_forall. split; intros H i Hi; specialize (H i Hi);
      rewrite elem_of_seq in *; lia.
Qed.

End NumpyTheory.

(** * Properties of the replay buffer *)

Module BufferTheory.

Import Numpy Buffer.

Section Theory.

Context {State Action : Type} {cast32 : Int32Cast Action}.
Implicit Types (b : ReplayBuffer State Action) (t : Transition State Action).
Implicit Type h : list (Transition State Action).

(** The buffer [append] leaves behind when it runs to its end. *)
Definition appended (s : State) (a : Action) (r : f64) (d : bool) (s' : State)
    (arr : ndarray Action) b : ReplayBuffer State Action :=
  let p := _p b in
  mk_ReplayBuffer
    (Nat.min (_n b + 1) (buffer_size b))
    ((p + 1) mod buffer_size b)
    (buffer_size b)
    (mk_ndarray (arr_dtype (state b)) (row_shape (state b)) (<[p := s]> (rows (state b))))
    (mk_ndarray (arr_dtype (reward b)) (row_shape (reward b))
       (<[p := to_float32 (float_of_float r)]> (rows (reward b))))
    (mk_ndarray (arr_dtype (done b)) (row_shape (done b))
       (<[p := to_float32 (float_of_bool d)]> (rows (done b))))
    (mk_ndarray (arr_dtype (next_state b)) (row_shape (next_state b))
       (<[p := s']> (rows (next_state b))))
    (Some (mk_ndarray (arr_dtype arr) (row_shape arr) (<[p := a]> (rows arr)))).

Lemma bind_Ok {S A B} (c : M S A) (k : A → M S B) (s s' : S) (a : A) :
  c s = (s', Ok a) → (c ≫= k) s = k a s'.
Proof. intros H. unfold mbind, M_bind, bind. rewrite H. reflexivity. Qed.

Lemma bind_Raise {S A B} (c : M S A) (k : A → M S B) (s s' : S) (e : exn) :
  c s = (s', Raise e) → (c ≫= k) s = (s', Raise e).
Proof. intros H. unfold mbind, M_bind, bind. rewrite H. reflexivity. Qed.

Lemma store_run {A} (field : ReplayBuffer State Action → result (ndarray A))
    update (x : A) b arr :
  field b = Ok arr → _p b < length (rows arr) →
  store field update x b =
    (update (mk_ndarray (arr_dtype arr) (row_shape arr) (<[_p b := x]> (rows arr))) b,
     Ok tt).
Proof.
  intros Hf Hp. unfold store, setitem. rewrite Hf.
  rewrite decide_True by done. reflexivity.
Qed.

Lemma append_run s a r d s' b arr :
  allocated b → _p b < buffer_size b → action b = Some arr →
  append s a r d s' b = (appended s a r d s' arr b, Ok tt).
Proof.
  intros (Hs & (arr' & Ha & Hla) & Hr & Hd & Hn) Hp Harr.
  rewrite Harr in Ha. injection Ha as <-.
  destruct b as [n p C st rw dn ns ac]. simpl in *. subst ac.
  unfold append.
  erewrite bind_Ok; [|apply store_run; [reflexivity|simpl; lia]].
  erewrite bind_Ok; [|apply store_run; [reflexivity|simpl; lia]].
  erewrite bind_Ok; [|apply store_run; [reflexivity|simpl; lia]].
  erewrite bind_Ok; [|apply store_run; [reflexivity|simpl; lia]].
  erewrite bind_Ok; [|apply store_run; [reflexivity|simpl; lia]].
  unfold mbind, M_bind, bind, get, lift, modify, py_mod. simpl.
  rewrite decide_False by lia. reflexivity.
Qed.

Lemma allocated_appended s a r d s' arr b :
  allocated b → action b = Some arr →
  allocated (appended s a r d s' arr b).
Proof.
  intros (Hs & (arr' & Ha & Hla) & Hr & Hd & Hn) Harr.
  rewrite Harr in Ha. injection Ha as <-.
  unfold allocated, appended. simpl. rewrite !length_insert.
  repeat split; try done. eexists. split; [reflexivity|].
  simpl. by rewrite length_insert.
Qed.

Lemma slot_appended_eq s a r d s' arr b :
  allocated b → _p b < buffer_size b → action b = Some arr →
  slot (appended s a r d s' arr b) (_p b) =
    Some (s, a, to_float32 (float_of_float r), to_float32 (float_of_bool d), s').
Proof.
  intros (Hs & (arr' & Ha & Hla) & Hr & Hd & Hn) Hp Harr.
  rewrite Harr in Ha. injection Ha as <-.
  unfold slot, appended. simpl.
  rewrite !list_lookup_insert_eq by lia. reflexivity.
Qed.

Lemma slot_appended_ne s a r d s' arr b i :
  action b = Some arr → i ≠ _p b →
  slot (appended s a r d s' arr b) i = slot b i.
Proof.
  intros Harr Hi. unfold slot, appended. simpl. rewrite Harr. simpl.
  rewrite !list_lookup_insert_ne by done. reflexivity.
Qed.

(** Two steps less than [C] apart fall into different slots. *)
Lemma mod_window (C j k : nat) : j < k → k < j + C → j mod C ≠ k mod C.
Proof.
  intros Hjk Hk E.
  pose proof (Nat.div_mod_eq j C) as Hj.
  pose proof (Nat.div_mod_eq k C) as Hk'.
  rewrite E in Hj.
  set (a := j / C) in *. set (c := k / C) in *. set (m := k mod C) in *.
  destruct (Nat.lt_ge_cases a c) as [Hac|Hca].
  - assert (C * (a + 1) ≤ C * c) by (apply Nat.mul_le_mono_l; lia). lia.
  - assert (C * c ≤ C * a) by (apply Nat.mul_le_mono_l; lia). lia.
Qed.

Lemma tracks_in_bounds b h : tracks b h → in_bounds b.
Proof.
  intros (_ & HC & Hp & Hn & _). split.
  - rewrite Hp. apply Nat.mod_upper_bound. lia.
  - lia.
Qed.

Lemma tracks_append b h t :
  tracks b h →
  ∃ arr, action b = Some arr ∧
         tracks (appended (t_state t) (t_action t) (t_reward t) (t_done t)
                   (t_next_state t) arr b) (h ++ [t]).
Proof.
  intros Htr. pose proof (tracks_in_bounds _ _ Htr) as [Hpb _].
  destruct Htr as (Hal & HC & Hp & Hn & Hslots).
  pose proof Hal as (_ & (arr & Harr & _) & _).
  exists arr. split; [done|].
  split; [by apply allocated_appended|].
  rewrite length_app. simpl.
  split; [done|]. split.
  { rewrite Hp. rewrite Nat.Div0.add_mod_idemp_l. reflexivity. }
  split; [lia|].
  intros j Hj. destruct (decide (j = length h)) as [->|Hne].
  - rewrite <- Hp. rewrite slot_appended_eq by done.
    rewrite lookup_app_r by lia. rewrite Nat.sub_diag. reflexivity.
  - rewrite slot_appended_ne; [|done|].
    + rewrite lookup_app_l by lia. apply Hslots. lia.
    + rewrite Hp. apply mod_window; lia.
Qed.

(** A run of appends on a tracked buffer never raises and stays tracked. *)
Lemma appends_tracks ts b h :
  tracks b h →
  ∃ b', appends ts b = (b', Ok tt) ∧ tracks b' (h ++ ts) ∧
        buffer_size b' = buffer_size b.
Proof.
  revert b h. induction ts as [|t ts IH]; intros b h Htr.
  - exists b. rewrite app_nil_r. done.
  - destruct (tracks_append b h t Htr) as (arr & Harr & Htr').
    destruct (IH _ _ Htr') as (b' & Hrun & Hb' & HC).
    exists b'. split; [|split].
    + simpl. erewrite bind_Ok; [exact Hrun|].
      unfold append_transition. apply append_run; [apply Htr| |done].
      by apply (tracks_in_bounds _ _ Htr).
    + by rewrite <- app_assoc in Hb'.
    + exact HC.
Qed.

Lemma length_empty {A} n sh d (junk : nat → A) :
  length (rows (empty n sh d junk)) = n.
Proof. unfold empty. simpl. by rewrite length_fmap, length_seq. Qed.

Lemma init_tracks (mem : Uninit State Action) C state_space action_space :
  1 ≤ C → supported action_space = true →
  tracks (__init__ mem C state_space action_space) [].
Proof.
  intros HC Hsup.
  assert (allocated (__init__ mem C state_space action_space)) as Hal.
  { unfold allocated.
    destruct action_space; try discriminate; simpl;
      rewrite ?length_fmap, ?length_seq;
      (repeat split; try done); eexists; (split; [reflexivity|]);
      apply length_empty. }
  split; [done|].
  destruct action_space; try discriminate; simpl;
    (repeat split; try done; try lia);
    try (by rewrite Nat.Div0.mod_0_l); intros j Hj; lia.
Qed.

(** The step, among the last [C] of [k >= C] steps, that falls into slot [i]. *)
Definition last_step_in_slot (C k i : nat) : nat :=
  if decide (i < k mod C) then C * (k / C) + i else C * (k / C - 1) + i.

Lemma last_step_in_slot_spec (C k i : nat) :
  1 ≤ C → C ≤ k → i < C →
  k - C ≤ last_step_in_slot C k i < k ∧ last_step_in_slot C k i mod C = i.
Proof.
  intros HC Hk Hi. unfold last_step_in_slot.
  pose proof (Nat.div_mod_eq k C) as Hdm.
  pose proof (Nat.mod_upper_bound k C ltac:(lia)) as Hq.
  assert (1 ≤ k / C) as Hdiv by (apply Nat.div_le_lower_bound; lia).
  set (a := k / C) in *. set (q := k mod C) in *.
  destruct (decide (i < q)).
  - split; [lia|].
    rewrite Nat.add_comm, Nat.mul_comm, Nat.Div0.mod_add.
    by apply Nat.mod_small.
  - assert (C * a = C * (a - 1) + C) as Hsplit.
    { replace a with (a - 1 + 1) at 1 by lia. lia. }
    split; [lia|].
    rewrite Nat.add_comm, Nat.mul_comm, Nat.Div0.mod_add.
    by apply Nat.mod_small.
Qed.

(** C1. [append] on a buffer with its storage allocated and its cursor in
    range never raises: it writes the transition (reward and done flag as
    float32) into slot [p], leaves every other slot alone, advances [p] to
    [(p+1) mod C] and sets [n] to [min(n+1, C)].  Hence [k >= C] appends
    into a fresh buffer of capacity [C >= 1] (Box or Discrete actions)
    all return, leave [n = C], and leave in slot [i] the transition of the
    one step [j] among the last [C] with [j mod C = i]. *)
Theorem append_overwrite_correct :
  (∀ b (s : State) (a : Action) (r : f64) (d : bool) (s' : State),
     allocated b → _p b < buffer_size b →
     ∃ b', append s a r d s' b = (b', Ok tt) ∧
           slot b' (_p b) =
             Some (s, a, to_float32 (float_of_float r),
                   to_float32 (float_of_bool d), s') ∧
           (∀ i, i ≠ _p b → slot b' i = slot b i) ∧
           _p b' = (_p b + 1) mod buffer_size b ∧
           _n b' = Nat.min (_n b + 1) (buffer_size b) ∧
           buffer_size b' = buffer_size b) ∧
  (∀ (mem : Uninit State Action) C state_space action_space
     (ts : list (Transition State Action)),
     1 ≤ C → supported action_space = true → C ≤ length ts →
     ∃ b', appends ts (__init__ mem C state_space action_space) = (b', Ok tt) ∧
           _n b' = C ∧
           _p b' = length ts mod C ∧
           (∀ j, length ts - C ≤ j < length ts →
                 slot b' (j mod C) = stored <$> ts !! j) ∧
           (∀ i, i < C →
                 length ts - C ≤ last_step_in_slot C (length ts) i < length ts ∧
                 last_step_in_slot C (length ts) i mod C = i ∧
                 slot b' i = stored <$> ts !! last_step_in_slot C (length ts) i)).
Proof.
  split.
  - intros b s a r d s' Hal Hp.
    pose proof Hal as (_ & (arr & Harr & _) & _).
    exists (appended s a r d s' arr b). split; [by apply append_run|].
    split; [by apply slot_appended_eq|].
    split; [intros i Hi; by apply slot_appended_ne|].
    done.
  - intros mem C ss acs ts HC Hsup Hlen.
    destruct (appends_tracks ts _ [] (init_tracks mem C ss acs HC Hsup))
      as (b' & Hrun & Htr & HCb).
    simpl in Htr. destruct Htr as (Hal & _ & Hp & Hn & Hslots).
    replace (buffer_size (__init__ mem C ss acs)) with C in HCb
      by (by destruct acs).
    rewrite HCb in *.
    exists b'. split; [done|]. split; [lia|]. split; [done|].
    split; [exact Hslots|].
    intros i Hi.
    destruct (last_step_in_slot_spec C (length ts) i HC Hlen Hi) as [Hw Hm].
    split; [done|]. split; [done|].
    rewrite <- Hm at 1. by apply Hslots.
Qed.

(** Slot [i] holds a transition that was appended before. *)
Definition valid_slot b h (i : nat) : Prop :=
  ∃ j t, h !! j = Some t ∧ slot b i = Some (stored t).

Lemma sample_keeps_buffer (batch_size : nat) b o :
  o ∈ sample batch_size b → o.1 = b.
Proof.
  unfold sample. destruct (randint 0 (_n b) batch_size) as [draws|e].
  - intros Ho. apply list_elem_of_fmap in Ho as (idxes & -> & _). done.
  - intros Ho. apply list_elem_of_singleton in Ho as ->. done.
Qed.

Lemma sub_mod_same (C k : nat) : C ≤ k → (k - C) mod C = k mod C.
Proof.
  intros Hk. replace k with (k - C + 1 * C) at 2 by lia.
  by rewrite Nat.Div0.mod_add.
Qed.

Lemma tracks_valid b h i : tracks b h → i < _n b → valid_slot b h i.
Proof.
  intros (Hal & HC & Hp & Hn & Hslots) Hi.
  destruct (decide (length h < buffer_size b)) as [Hlt|Hge].
  - assert (i < length h) as Hih by lia.
    destruct (lookup_lt_is_Some_2 h i Hih) as [t Ht].
    exists i, t. split; [done|].
    specialize (Hslots i ltac:(lia)).
    rewrite Nat.mod_small in Hslots by lia.
    by rewrite Hslots, Ht.
  - destruct (last_step_in_slot_spec (buffer_size b) (length h) i)
      as [Hw Hm]; [lia..|].
    set (j := last_step_in_slot (buffer_size b) (length h) i) in *.
    destruct (lookup_lt_is_Some_2 h j ltac:(lia)) as [t Ht].
    exists j, t. split; [done|].
    specialize (Hslots j Hw). by rewrite Hm, Ht in Hslots.
Qed.

(** C4. The invariant of the buffer, with [h] the transitions appended so
    far: construction (capacity at least one, Box or Discrete actions)
    establishes it for the empty history; [append] keeps it, never raises
    and writes at the cursor; [sample] leaves the buffer as it is.  Under
    it the cursor is in [0, C) and the fill count in [0, C], every slot
    below [n] holds a transition appended before, and once [n = C] all
    [C] slots do and the slot at [p] holds the oldest of the last [C]
    transitions, the one the next append replaces. *)
Theorem buffer_invariant :
  (∀ (mem : Uninit State Action) C state_space action_space,
     1 ≤ C → supported action_space = true →
     tracks (__init__ mem C state_space action_space) []) ∧
  (∀ b h t, tracks b h →
     ∃ b', append_transition t b = (b', Ok tt) ∧ tracks b' (h ++ [t]) ∧
           slot b' (_p b) = Some (stored t)) ∧
  (∀ b h (batch_size : nat) o, tracks b h →
     o ∈ sample batch_size b → o.1 = b ∧ tracks o.1 h) ∧
  (∀ b h, tracks b h →
     _p b < buffer_size b ∧ _n b ≤ buffer_size b ∧
     (∀ i, i < _n b → valid_slot b h i) ∧
     (_n b = buffer_size b →
        (∀ i, i < buffer_size b → valid_slot b h i) ∧
        slot b (_p b) = stored <$> h !! (length h - buffer_size b) ∧
        (∀ i, i < buffer_size b → i ≠ _p b →
              let j := last_step_in_slot (buffer_size b) (length h) i in
              length h - buffer_size b < j < length h ∧
              slot b i = stored <$> h !! j))).
Proof.
  split; [|split; [|split]].
  - intros. by apply init_tracks.
  - intros b h t Htr.
    destruct (tracks_append b h t Htr) as (arr & Harr & Htr').
    pose proof (tracks_in_bounds _ _ Htr) as [Hp _].
    eexists. split; [|split; [exact Htr'|]].
    + unfold append_transition. apply append_run; [apply Htr|done|done].
    + apply slot_appended_eq; [apply Htr|done|done].
  - intros b h bs o Htr Ho. rewrite (sample_keeps_buffer _ _ _ Ho). done.
  - intros b h Htr. pose proof (tracks_in_bounds _ _ Htr) as [Hp Hn].
    split; [done|]. split; [done|].
    split; [intros i Hi; by apply tracks_valid|].
    intros Hfull. split; [intros i Hi; apply tracks_valid; [done|lia]|].
    destruct Htr as (Hal & HC & Hpe & Hne & Hslots).
    assert (buffer_size b ≤ length h) as Hlen by lia.
    split.
    + rewrite Hpe, <- (sub_mod_same _ _ Hlen). apply Hslots. lia.
    + intros i Hi Hip j.
      destruct (last_step_in_slot_spec (buffer_size b) (length h) i)
        as [Hw Hm]; [lia..|].
      fold j in Hw, Hm. split.
      * destruct (decide (j = length h - buffer_size b)) as [Hj|]; [|lia].
        exfalso. apply Hip.
        by rewrite Hpe, <- (sub_mod_same _ _ Hlen), <- Hj.
      * rewrite <- Hm at 1. by apply Hslots.
Qed.

(** The dtypes and row shapes [__init__] gives the state, reward and done
    storage. *)
Definition typed b : Prop :=
  arr_dtype (state b) = float32 ∧ arr_dtype (next_state b) = float32 ∧
  row_shape (state b) = row_shape (next_state b) ∧
  arr_dtype (reward b) = float32 ∧ row_shape (reward b) = [1] ∧
  arr_dtype (done b) = float32 ∧ row_shape (done b) = [1].

(** [out] is [arr] gathered at [idxes]: same dtype and row shape, one row
    per index, in the order of the indices. *)
Definition gathered {A} (arr out : ndarray A) (idxes : list nat) : Prop :=
  arr_dtype out = arr_dtype arr ∧ row_shape out = row_shape arr ∧
  length (rows out) = length idxes ∧
  ∀ k i, idxes !! k = Some i → rows out !! k = rows arr !! i.

Lemma getitem_gathered {A} (arr : ndarray A) (idxes : list nat) :
  Forall (λ i, i < length (rows arr)) idxes →
  ∃ out, getitem arr idxes = Ok out ∧ gathered arr out idxes.
Proof.
  intros Hall. unfold getitem.
  destruct (NumpyTheory.gather_ok _ _ Hall) as (xs & -> & Hlen & Hxs).
  eexists. split; [reflexivity|]. by repeat split.
Qed.

Lemma device_put_other {A} (cast : A → A) (a : ndarray A) :
  arr_dtype a ≠ int64 → device_put cast a = a.
Proof. unfold device_put. by destruct (arr_dtype a). Qed.

Lemma device_put_int64 {A} (cast : A → A) (a : ndarray A) :
  arr_dtype a = int64 →
  arr_dtype (device_put cast a) = int32 ∧
  row_shape (device_put cast a) = row_shape a ∧
  rows (device_put cast a) = cast <$> rows a.
Proof. unfold device_put. by intros ->. Qed.

Lemma length_device_put {A} (cast : A → A) (a : ndarray A) :
  length (rows (device_put cast a)) = length (rows a).
Proof.
  unfold device_put. destruct (arr_dtype a); simpl; try done.
  by rewrite length_fmap.
Qed.

(** The five gathers of [sample], and the tuple put on the device. *)
Lemma batch_at_gathered b (idxes : list nat) :
  allocated b → Forall (λ i, i < buffer_size b) idxes →
  ∃ s a r d s' arr,
    batch_at b idxes =
      Ok (device_put id s, device_put int32_of a, device_put id r,
          device_put id d, device_put id s') ∧
    action b = Some arr ∧
    gathered (state b) s idxes ∧ gathered arr a idxes ∧
    gathered (reward b) r idxes ∧ gathered (done b) d idxes ∧
    gathered (next_state b) s' idxes.
Proof.
  intros (Hs & (arr & Ha & Hla) & Hr & Hd & Hn) Hall.
  destruct (getitem_gathered (state b) idxes) as (s & Es & Gs);
    [by rewrite Hs|].
  destruct (getitem_gathered arr idxes) as (a & Ea & Ga); [by rewrite Hla|].
  destruct (getitem_gathered (reward b) idxes) as (r & Er & Gr);
    [by rewrite Hr|].
  destruct (getitem_gathered (done b) idxes) as (d & Ed & Gd);
    [by rewrite Hd|].
  destruct (getitem_gathered (next_state b) idxes) as (s' & Es' & Gs');
    [by rewrite Hn|].
  exists s, a, r, d, s', arr.
  unfold batch_at, getattr_action. rewrite Es, Ha, Ea, Er, Ed, Es'.
  done.
Qed.

(** On a typed buffer the four float32 gathers reach the caller as they
    are. *)
Lemma batch_at_typed b (idxes : list nat) :
  allocated b → typed b → Forall (λ i, i < buffer_size b) idxes →
  ∃ s a r d s' arr,
    batch_at b idxes = Ok (s, device_put int32_of a, r, d, s') ∧
    action b = Some arr ∧
    gathered (state b) s idxes ∧ gathered arr a idxes ∧
    gathered (reward b) r idxes ∧ gathered (done b) d idxes ∧
    gathered (next_state b) s' idxes.
Proof.
  intros Hal (T1 & T2 & _ & T3 & _ & T4 & _) Hall.
  destruct (batch_at_gathered b idxes Hal Hall)
    as (s & a & r & d & s' & arr & Hb & Ha & Gs & Ga & Gr & Gd & Gs').
  exists s, a, r, d, s', arr.
  rewrite !(device_put_other id) in Hb.
  - done.
  - destruct Gs' as (-> & _). by rewrite T2.
  - destruct Gd as (-> & _). by rewrite T4.
  - destruct Gr as (-> & _). by rewrite T3.
  - destruct Gs as (-> & _). by rewrite T1.
Qed.

(** The five arrays with no rows that an empty gather leaves. *)
Definition no_rows_of b (arr : ndarray Action) : Batch State Action :=
  (device_put id (mk_ndarray (arr_dtype (state b)) (row_shape (state b)) []),
   device_put int32_of (mk_ndarray (arr_dtype arr) (row_shape arr) []),
   device_put id (mk_ndarray (arr_dtype (reward b)) (row_shape (reward b)) []),
   device_put id (mk_ndarray (arr_dtype (done b)) (row_shape (done b)) []),
   device_put id
     (mk_ndarray (arr_dtype (next_state b)) (row_shape (next_state b)) [])).

(** C2, as the code has it.  On a buffer nothing was appended to
    ([n = 0]) a call [sample(batch_size)] with [batch_size >= 1] has one
    outcome: the ValueError that [np.random.randint] raises for the empty
    range [[0, 0)], at the call, with the buffer untouched.  With
    [batch_size = 0] no index is drawn and the empty range is accepted:
    the one outcome is five arrays with no rows when the buffer has its
    action storage, and the AttributeError of [self.action] when it has
    none; the buffer is untouched. *)
Theorem sample_on_empty_buffer b (batch_size : nat) :
  _n b = 0 →
  (1 ≤ batch_size → sample batch_size b = [(b, Raise ValueError)]) ∧
  (batch_size = 0 →
   (action b = None → sample batch_size b = [(b, Raise AttributeError)]) ∧
   (∀ arr, action b = Some arr →
      sample batch_size b = [(b, Ok (no_rows_of b arr))] ∧
      let '(s, a, r, d, s') := no_rows_of b arr in
      rows s = [] ∧ rows a = [] ∧ rows r = [] ∧ rows d = [] ∧ rows s' = [])).
Proof.
  intros Hn. split.
  - intros Hbs. unfold sample, randint. rewrite Hn.
    rewrite decide_False by lia. rewrite decide_True by lia. reflexivity.
  - intros ->. unfold sample, randint, batch_at, getattr_action. simpl.
    split.
    + intros ->. reflexivity.
    + intros arr ->. split; [reflexivity|].
      unfold no_rows_of, device_put. simpl.
      destruct (arr_dtype (state b)), (arr_dtype arr), (arr_dtype (reward b)),
        (arr_dtype (done b)), (arr_dtype (next_state b)); done.
Qed.

(** C3, as the code has it.  On a buffer with [1 <= n <= C], its storage
    allocated and typed as [__init__] types it, a call
    [sample(batch_size)] with [batch_size >= 1] has as equally likely
    outcomes exactly the index arrays of length [batch_size] over
    [[0, n)], each once ([n ^ batch_size] of them: independent uniform
    draws with replacement); every drawn index is below [n]; and for each
    draw the call returns, buffer untouched, five arrays of [batch_size]
    rows: state, reward, done and next_state gathered at the drawn
    indices in the order drawn, and the action gathered likewise and then
    put on the device, which leaves a float32 action array as gathered
    and turns an int64 one into int32, each row cast to 32 bits. *)
Theorem sample_uniform_gather b (batch_size : nat) :
  allocated b → typed b → _n b ≤ buffer_size b → 1 ≤ _n b → 1 ≤ batch_size →
  ∃ draws,
    randint 0 (_n b) batch_size = Ok draws ∧
    sample batch_size b = (λ idxes, (b, batch_at b idxes)) <$> draws ∧
    NoDup draws ∧
    length draws = _n b ^ batch_size ∧
    (∀ idxes, idxes ∈ draws ↔
              length idxes = batch_size ∧ Forall (λ i, i < _n b) idxes) ∧
    (∀ idxes, idxes ∈ draws →
       ∃ s a r d s' arr,
         batch_at b idxes = Ok (s, device_put int32_of a, r, d, s') ∧
         action b = Some arr ∧
         gathered (state b) s idxes ∧ gathered arr a idxes ∧
         gathered (reward b) r idxes ∧ gathered (done b) d idxes ∧
         gathered (next_state b) s' idxes ∧
         length (rows s) = batch_size ∧
         length (rows (device_put int32_of a)) = batch_size ∧
         length (rows r) = batch_size ∧ length (rows d) = batch_size ∧
         length (rows s') = batch_size ∧
         (arr_dtype arr ≠ int64 → device_put int32_of a = a) ∧
         (arr_dtype arr = int64 →
            arr_dtype (device_put int32_of a) = int32 ∧
            row_shape (device_put int32_of a) = row_shape arr ∧
            rows (device_put int32_of a) = int32_of <$> rows a)).
Proof.
  intros Hal Hty Hn H1 Hbs.
  destruct (NumpyTheory.randint_uniform 0 (_n b) batch_size Hbs H1)
    as (draws & Hdraw & Hnd & Hlen & Hmem).
  exists draws. split; [done|]. split.
  { unfold sample. by rewrite Hdraw. }
  split; [done|]. split; [by rewrite Hlen, Nat.sub_0_r|].
  assert (∀ idxes, idxes ∈ draws ↔
            length idxes = batch_size ∧ Forall (λ i, i < _n b) idxes) as Hmem'.
  { intros idxes. rewrite Hmem.
    assert (Forall (λ i, 0 ≤ i < _n b) idxes ↔ Forall (λ i, i < _n b) idxes)
      as ->; [|done].
    rewrite !Forall_forall. split; intros H i Hi; specialize (H i Hi); lia. }
  split; [exact Hmem'|].
  intros idxes Hin. apply Hmem' in Hin as [Hl Hall].
  destruct (batch_at_typed b idxes Hal Hty) as
    (s & a & r & d & s' & arr & Hb & Ha & Gs & Ga & Gr & Gd & Gs').
  { eapply Forall_impl; [exact Hall|]. intros i Hi. simpl in *. lia. }
  exists s, a, r, d, s', arr.
  split; [done|]. split; [done|].
  repeat (split; [done|]).
  rewrite length_device_put.
  pose proof Ga as (Hdt & Hsh & _).
  destruct Gs as (_ & _ & -> & _), Ga as (_ & _ & -> & _),
    Gr as (_ & _ & -> & _), Gd as (_ & _ & -> & _), Gs' as (_ & _ & -> & _).
  repeat (split; [done|]). split.
  - intros Hne. apply device_put_other. by rewrite Hdt.
  - intros He. rewrite <- Hdt in He.
    destruct (device_put_int64 int32_of a He) as (E1 & E2 & E3).
    by rewrite E1, E2, E3, Hsh.
Qed.

Lemma float32_of_done (d : bool) :
  to_float32 (float_of_bool d) = if d then one32 else zero32.
Proof. destruct d; reflexivity. Qed.

(** C10. The reward and done storage are float32 arrays with rows of
    shape (1,), and stay so under [append]; an [append] that runs (storage
    allocated, cursor in range) leaves in the cursor's row of the reward
    storage [float(reward)] rounded to float32, and in the cursor's row of
    the done storage [float(done)] as float32: 1.0 for [True], 0.0 for
    [False], a number and never a boolean. *)
Theorem append_stores_floats :
  (∀ (mem : Uninit State Action) C state_space action_space,
     typed (__init__ mem C state_space action_space)) ∧
  (∀ b (s : State) (a : Action) (r : f64) (d : bool) (s' : State),
     allocated b → _p b < buffer_size b → typed b →
     ∃ b', append s a r d s' b = (b', Ok tt) ∧ typed b' ∧
           rows (reward b') !! _p b = Some (to_float32 (float_of_float r)) ∧
           rows (done b') !! _p b = Some (to_float32 (float_of_bool d)) ∧
           rows (done b') !! _p b = Some (if d then one32 else zero32)).
Proof.
  split.
  - intros mem C ss acs. unfold typed. by destruct acs.
  - intros b s a r d s' Hal Hp Hty.
    pose proof Hal as (Hs & (arr & Harr & Hla) & Hr & Hd & Hn).
    exists (appended s a r d s' arr b).
    split; [by apply append_run|]. split; [exact Hty|].
    unfold appended. simpl. rewrite <- float32_of_done.
    rewrite !list_lookup_insert_eq by lia. done.
Qed.

(** C8, what the code does.  For a Box action space [__init__] allocates
    float32 action rows of the action shape, for a Discrete one int64 rows
    of shape (1,).  For any other space it returns a buffer all the same,
    with no [action] attribute; the first [append] on it then writes its
    state row and raises AttributeError. *)
Theorem init_action_storage :
  (∀ (mem : Uninit State Action) C state_space sh,
     action (__init__ mem C state_space (Gym.Box sh)) =
       Some (empty C sh float32 (junk_action _ _ mem))) ∧
  (∀ (mem : Uninit State Action) C state_space n,
     action (__init__ mem C state_space (Gym.Discrete n)) =
       Some (empty C [1] int64 (junk_action _ _ mem))) ∧
  (∀ (mem : Uninit State Action) C state_space action_space
     (s : State) (a : Action) (r : f64) (d : bool) (s' : State),
     supported action_space = false → 1 ≤ C →
     let b := __init__ mem C state_space action_space in
     action b = None ∧
     ∃ b', append s a r d s' b = (b', Raise AttributeError) ∧
           rows (state b') !! 0 = Some s ∧ _n b' = 0).
Proof.
  split; [done|]. split; [done|].
  intros mem C ss acs s a r d s' Hsup HC b.
  assert (action b = None) as Hnone by (by destruct acs).
  split; [done|].
  assert (_p b = 0 ∧ _n b = 0 ∧
          rows (state b) = junk_state _ _ mem <$> seq 0 C) as (Hp & Hn & Hrows).
  { by destruct acs. }
  eexists. split.
  - unfold append. erewrite bind_Ok.
    2:{ apply store_run; [reflexivity|]. rewrite Hp, Hrows, length_fmap, length_seq. lia. }
    erewrite bind_Raise; [reflexivity|].
    unfold store, getattr_action. simpl. rewrite Hnone. reflexivity.
  - simpl. rewrite Hp, Hn. split; [|done].
    apply list_lookup_insert_eq. rewrite Hrows, length_fmap, length_seq. lia.
Qed.

End Theory.

Import Examples.

(** Capacity 5, the seven transitions [tr 1 .. tr 7]: the run returns,
    the fill count is 5, the cursor 2, and the slots hold [tr 6], [tr 7],
    [tr 3], [tr 4], [tr 5]. *)
Lemma append_overwrite_witness :
  ∃ b', appends (tr <$> seq 1 7) b5 = (b', Ok tt) ∧
        _n b' = 5 ∧ _p b' = 2 ∧
        rows (state b') = [6; 7; 3; 4; 5] ∧
        slot b' 0 = Some (stored (tr 6)) ∧ slot b' 2 = Some (stored (tr 3)).
Proof.
  destruct (proj2 (@append_overwrite_correct nat Z) mem0 5 (Gym.Box [3])
              (Gym.Discrete 4) (tr <$> seq 1 7))
    as (b' & Hrun & Hn & Hp & _); [lia|reflexivity|simpl; lia|].
  exists b'. split; [exact Hrun|].
  vm_compute in Hrun. injection Hrun as <-. repeat split.
Defined.

Lemma sample_on_empty_buffer_witness :
  _n b5 = 0 ∧
  sample 3 b5 = [(b5, Raise ValueError)] ∧
  ∃ arr, action b5 = Some arr ∧ sample 0 b5 = [(b5, Ok (no_rows_of b5 arr))].
Proof.
  split; [reflexivity|]. split.
  - apply (proj1 (sample_on_empty_buffer b5 3 eq_refl)). lia.
  - eexists. split; [reflexivity|].
    apply (proj2 (proj2 (sample_on_empty_buffer b5 0 eq_refl) eq_refl)).
    reflexivity.
Defined.

(** On the fresh buffer [b5] (fill count 0) the call [sample(0)] raises
    nothing: it returns five arrays with no rows. *)
Lemma sample_empty_zero_batch :
  _n b5 = 0 ∧ sample 0 b5 = [(b5, Ok no_rows)].
Proof. split; reflexivity. Qed.

Lemma sample_uniform_gather_witness :
  (allocated b5_two ∧ typed b5_two ∧ _n b5_two ≤ buffer_size b5_two ∧
   1 ≤ _n b5_two ∧ 1 ≤ 2) ∧
  ∃ draws,
    randint 0 (_n b5_two) 2 = Ok draws ∧
    sample 2 b5_two = (λ idxes, (b5_two, batch_at b5_two idxes)) <$> draws ∧
    NoDup draws ∧
    length draws = _n b5_two ^ 2 ∧
    (∀ idxes, idxes ∈ draws ↔
              length idxes = 2 ∧ Forall (λ i, i < _n b5_two) idxes) ∧
    (∀ idxes, idxes ∈ draws →
       ∃ s a r d s' arr,
         batch_at b5_two idxes = Ok (s, device_put int32_of a, r, d, s') ∧
         action b5_two = Some arr ∧
         gathered (state b5_two) s idxes ∧ gathered arr a idxes ∧
         gathered (reward b5_two) r idxes ∧ gathered (done b5_two) d idxes ∧
         gathered (next_state b5_two) s' idxes ∧
         length (rows s) = 2 ∧
         length (rows (device_put int32_of a)) = 2 ∧
         length (rows r) = 2 ∧ length (rows d) = 2 ∧
         length (rows s') = 2 ∧
         (arr_dtype arr ≠ int64 → device_put int32_of a = a) ∧
         (arr_dtype arr = int64 →
            arr_dtype (device_put int32_of a) = int32 ∧
            row_shape (device_put int32_of a) = row_shape arr ∧
            rows (device_put int32_of a) = int32_of <$> rows a)).
Proof.
  assert (allocated b5_two) as Hal.
  { repeat split; try reflexivity. eexists. split; reflexivity. }
  assert (typed b5_two) as Hty by (repeat split; reflexivity).
  assert (_n b5_two ≤ buffer_size b5_two) as Hn by (vm_compute; lia).
  assert (1 ≤ _n b5_two) as H1 by (vm_compute; lia).
  split; [split; [exact Hal|split; [exact Hty|split; [exact Hn|split; [exact H1|lia]]]]|].
  apply (sample_uniform_gather b5_two 2 Hal Hty Hn H1). lia.
Defined.

(** The Discrete buffer [b5_big] holds the action index 2^40 + 5 in slot
    0, as int64.  Its one outcome of [sample(1)] returns the action array
    as int32 with the row 5: not the row that is stored. *)
Lemma sample_narrows_action :
  (∃ arr, action b5_big = Some arr ∧ arr_dtype arr = int64 ∧
          rows arr !! 0 = Some 1099511627781%Z) ∧
  sample 1 b5_big =
    [(b5_big,
      Ok (mk_ndarray float32 [3] [1], mk_ndarray int32 [1] [5%Z],
          mk_ndarray float32 [1] [S754_zero false],
          mk_ndarray float32 [1] [S754_zero false],
          mk_ndarray float32 [3] [2]))].
Proof.
  split; [eexists; split; [reflexivity|split; reflexivity]|].
  reflexivity.
Qed.

End BufferTheory.

(** * Properties of the algorithm base classes *)

Module BaseTheory.

Section UpdateCadence.

Context {Rng Tensor Params Policy RolloutBuffer Buffer : Type}.
Implicit Type on : OnPolicyActorCritic.obj Rng Tensor Params RolloutBuffer.
Implicit Type off : OffPolicyAlgorithm.obj Rng Tensor Policy Buffer.

Lemma on_is_update_true on :
  OnPolicyActorCritic.is_update on = Ok true ↔
  OnPolicyActorCritic.buffer_size on ≠ 0%Z ∧
  (OnPolicyActorCritic.env_step on mod OnPolicyActorCritic.buffer_size on = 0)%Z.
Proof.
  unfold OnPolicyActorCritic.is_update, py_modZ.
  destruct (Z.eqb_spec (OnPolicyActorCritic.buffer_size on) 0) as [E|E].
  - split; [discriminate|]. intros [H _]. done.
  - split.
    + intros [= H]. apply Z.eqb_eq in H. done.
    + intros [_ H]. by rewrite H.
Qed.

Lemma off_is_update_true off :
  OffPolicyAlgorithm.is_update off = Ok true ↔
  OffPolicyAlgorithm.update_interval off ≠ 0%Z ∧
  (OffPolicyAlgorithm.env_step off mod OffPolicyAlgorithm.update_interval off = 0)%Z ∧
  (OffPolicyAlgorithm.start_steps off ≤ OffPolicyAlgorithm.env_step off)%Z.
Proof.
  unfold OffPolicyAlgorithm.is_update, py_modZ.
  destruct (Z.eqb_spec (OffPolicyAlgorithm.update_interval off) 0) as [E|E].
  - split; [discriminate|]. intros [H _]. done.
  - split.
    + intros [= H]. apply andb_true_iff in H as [H1 H2].
      apply Z.eqb_eq in H1. apply Z.leb_le in H2. done.
    + intros (_ & H1 & H2). apply Z.eqb_eq in H1. apply Z.leb_le in H2.
      by rewrite H1, H2.
Qed.

(** C5. [is_update()] returns [True] exactly when the cadence condition
    holds: on-policy, [env_step mod buffer_size = 0]; off-policy,
    [env_step mod update_interval = 0] and [env_step >= start_steps] (a
    zero modulus raises ZeroDivisionError, otherwise the call returns the
    truth value of the condition).  With [update_interval = 4] and
    [start_steps = 10] it is [True] exactly at the multiples of 4 from 12
    on (12, 16, 20, ...) and [False] at every [env_step] in 1..9. *)
Theorem is_update_cadence :
  (∀ on,
     (OnPolicyActorCritic.is_update on = Ok true ↔
      OnPolicyActorCritic.buffer_size on ≠ 0%Z ∧
      (OnPolicyActorCritic.env_step on
         mod OnPolicyActorCritic.buffer_size on = 0)%Z) ∧
     (OnPolicyActorCritic.buffer_size on ≠ 0%Z →
      OnPolicyActorCritic.is_update on =
        Ok (OnPolicyActorCritic.env_step on
              mod OnPolicyActorCritic.buffer_size on =? 0)%Z)) ∧
  (∀ off,
     (OffPolicyAlgorithm.is_update off = Ok true ↔
      OffPolicyAlgorithm.update_interval off ≠ 0%Z ∧
      (OffPolicyAlgorithm.env_step off
         mod OffPolicyAlgorithm.update_interval off = 0)%Z ∧
      (OffPolicyAlgorithm.start_steps off ≤ OffPolicyAlgorithm.env_step off)%Z) ∧
     (OffPolicyAlgorithm.update_interval off ≠ 0%Z →
      OffPolicyAlgorithm.is_update off =
        Ok ((OffPolicyAlgorithm.env_step off
               mod OffPolicyAlgorithm.update_interval off =? 0)%Z
            && (OffPolicyAlgorithm.start_steps off
                  <=? OffPolicyAlgorithm.env_step off)%Z))) ∧
  (∀ off,
     OffPolicyAlgorithm.update_interval off = 4%Z →
     OffPolicyAlgorithm.start_steps off = 10%Z →
     (OffPolicyAlgorithm.is_update off = Ok true ↔
      ∃ m : Z, (3 ≤ m)%Z ∧ OffPolicyAlgorithm.env_step off = (4 * m)%Z) ∧
     ((1 ≤ OffPolicyAlgorithm.env_step off ≤ 9)%Z →
      OffPolicyAlgorithm.is_update off = Ok false) ∧
     (OffPolicyAlgorithm.env_step off = 12%Z ∨
      OffPolicyAlgorithm.env_step off = 16%Z ∨
      OffPolicyAlgorithm.env_step off = 20%Z →
      OffPolicyAlgorithm.is_update off = Ok true)).
Proof.
  split; [|split].
  - intros on. split; [apply on_is_update_true|].
    intros Hb. unfold OnPolicyActorCritic.is_update, py_modZ.
    by destruct (Z.eqb_spec (OnPolicyActorCritic.buffer_size on) 0).
  - intros off. split; [apply off_is_update_true|].
    intros Hb. unfold OffPolicyAlgorithm.is_update, py_modZ.
    by destruct (Z.eqb_spec (OffPolicyAlgorithm.update_interval off) 0).
  - intros off Hui Hss.
    assert (OffPolicyAlgorithm.is_update off =
            Ok ((OffPolicyAlgorithm.env_step off mod 4 =? 0)%Z
                && (10 <=? OffPolicyAlgorithm.env_step off)%Z)) as Hupd.
    { unfold OffPolicyAlgorithm.is_update, py_modZ. by rewrite Hui, Hss. }
    set (n := OffPolicyAlgorithm.env_step off) in *.
    split; [|split].
    + rewrite off_is_update_true, Hui, Hss. fold n. split.
      * intros (_ & Hm & Hge). exists (n / 4)%Z.
        pose proof (Z.div_mod n 4 ltac:(lia)). lia.
      * intros (m & Hm & ->). split; [lia|].
        split; [|lia]. rewrite Z.mul_comm. apply Z.mod_mul. lia.
    + intros Hr. rewrite Hupd.
      replace (10 <=? n)%Z with false by (symmetry; apply Z.leb_gt; lia).
      by rewrite andb_false_r.
    + intros [H|[H|H]]; rewrite Hupd, H; reflexivity.
Qed.

End UpdateCadence.

Section Steps.

Context {Rng Tensor Key Params Policy E Obs Act Reward Info LogPi : Type}.
Context {RolloutBuffer Buffer : Type}.
Variable next : Rng → Key * Rng.
Variable _explore : Params → Key → Obs → Act * LogPi.
Variable RolloutBuffer_append :
  RolloutBuffer → Obs → Act → Reward → bool → LogPi → Obs → RolloutBuffer.
Variable explore : Policy → Rng → Obs → Policy * Rng * Act.
Variable Buffer_append :
  Buffer → Obs → Act → Reward → bool → Obs → bool → Buffer.

Implicit Type on : OnPolicyActorCritic.obj Rng Tensor Params RolloutBuffer.
Implicit Type off : OffPolicyAlgorithm.obj Rng Tensor Policy Buffer.
Implicit Type env : Gym.Env E Obs Act Reward Info.

(** [self] after [self.env_step += 1]. *)
Definition counted off : OffPolicyAlgorithm.obj Rng Tensor Policy Buffer :=
  OffPolicyAlgorithm.set_super
    (Algorithm.set_env_step (OffPolicyAlgorithm.env_step off + 1)%Z
       (OffPolicyAlgorithm.super off)) off.

(** The call is one of the warm-up window: the incremented [env_step] is
    at most [start_steps]. *)
Definition warm_up off : bool :=
  (OffPolicyAlgorithm.env_step off + 1 <=? OffPolicyAlgorithm.start_steps off)%Z.

Lemma off_step_warm_up env off e state t :
  warm_up off = true →
  OffPolicyAlgorithm.step explore Buffer_append env off e state t =
    OffPolicyAlgorithm.step_with Buffer_append env (counted off)
      (Gym.action_space_sample env e).1 state (t + 1)%Z
      (Gym.action_space_sample env e).2.
Proof.
  intros Hw. unfold OffPolicyAlgorithm.step. fold (counted off).
  change (OffPolicyAlgorithm.env_step (counted off))
    with (OffPolicyAlgorithm.env_step off + 1)%Z.
  change (OffPolicyAlgorithm.start_steps (counted off))
    with (OffPolicyAlgorithm.start_steps off).
  unfold warm_up in Hw. rewrite Hw.
  by destruct (Gym.action_space_sample env e).
Qed.

Lemma off_step_explore env off e state t :
  warm_up off = false →
  OffPolicyAlgorithm.step explore Buffer_append env off e state t =
    OffPolicyAlgorithm.step_with Buffer_append env
      (OffPolicyAlgorithm.call_explore explore (counted off) state).1
      e state (t + 1)%Z
      (OffPolicyAlgorithm.call_explore explore (counted off) state).2.
Proof.
  intros Hw. unfold OffPolicyAlgorithm.step. fold (counted off).
  change (OffPolicyAlgorithm.env_step (counted off))
    with (OffPolicyAlgorithm.env_step off + 1)%Z.
  change (OffPolicyAlgorithm.start_steps (counted off))
    with (OffPolicyAlgorithm.start_steps off).
  unfold warm_up in Hw. rewrite Hw.
  by destruct (OffPolicyAlgorithm.call_explore explore (counted off) state).
Qed.

(** The action [step] hands to the environment, and the environment as it
    is when it receives it. *)
Definition chosen_action env off (e : E) (state : Obs) : Act :=
  if warm_up off then (Gym.action_space_sample env e).2
  else (explore (OffPolicyAlgorithm.policy off)
          (Algorithm.rng (OffPolicyAlgorithm.super off)) state).2.

Definition env_at_step env off (e : E) : E :=
  if warm_up off then (Gym.action_space_sample env e).1 else e.

Lemma step_with_buffer env off e state t action :
  OffPolicyAlgorithm.buffer
    (OffPolicyAlgorithm.step_with Buffer_append env off e state t action).1.1 =
  let '(e1, (next_state, reward, done, _)) := Gym.step env action e in
  Buffer_append (OffPolicyAlgorithm.buffer off) state action reward
    (if (t =? Gym._max_episode_steps env e1)%Z then false else done)
    next_state done.
Proof.
  unfold OffPolicyAlgorithm.step_with.
  destruct (Gym.step env action e) as [e1 [[[ns r] d] info]].
  destruct d; [destruct (Gym.reset env e1)|]; reflexivity.
Qed.

(** C6. In both [step] methods the mask handed to the buffer's [append]
    is the [done] flag the environment returned, except that it is
    [False] when the incremented step count [t + 1] equals
    [env._max_episode_steps]. *)
Theorem step_done_mask :
  (∀ env on (e : E) (state : Obs) (t : Z),
     let key := (next (Algorithm.rng (OnPolicyActorCritic.super on))).1 in
     let '(action, log_pi) :=
       _explore (OnPolicyActorCritic.params_actor on) key state in
     let '(e1, (next_state, reward, done, _)) := Gym.step env action e in
     OnPolicyActorCritic.buffer
       (OnPolicyActorCritic.step next _explore RolloutBuffer_append env on e
          state t).1.1 =
     RolloutBuffer_append (OnPolicyActorCritic.buffer on) state action reward
       (if (t + 1 =? Gym._max_episode_steps env e1)%Z then false else done)
       log_pi next_state) ∧
  (∀ env off (e : E) (state : Obs) (t : Z),
     let action := chosen_action env off e state in
     let '(e1, (next_state, reward, done, _)) :=
       Gym.step env action (env_at_step env off e) in
     OffPolicyAlgorithm.buffer
       (OffPolicyAlgorithm.step explore Buffer_append env off e state t).1.1 =
     Buffer_append (OffPolicyAlgorithm.buffer off) state action reward
       (if (t + 1 =? Gym._max_episode_steps env e1)%Z then false else done)
       next_state done).
Proof.
  split.
  - intros env on e state t key.
    unfold OnPolicyActorCritic.step, OnPolicyActorCritic.explore. simpl.
    subst key. destruct (next _) as [key rng']. simpl.
    destruct (_explore _ key state) as [action log_pi].
    destruct (Gym.step env action e) as [e1 [[[ns r] d] info]].
    destruct d; [destruct (Gym.reset env e1)|]; reflexivity.
  - intros env off e state t action. subst action.
    unfold chosen_action, env_at_step.
    destruct (warm_up off) eqn:Hw.
    + rewrite (off_step_warm_up _ _ _ _ _ Hw).
      pose proof (step_with_buffer env (counted off)
                    (Gym.action_space_sample env e).1 state (t + 1)%Z
                    (Gym.action_space_sample env e).2) as Hb.
      destruct (Gym.step env _ _) as [e1 [[[ns r] d] info]]. exact Hb.
    + rewrite (off_step_explore _ _ _ _ _ Hw).
      pose proof (step_with_buffer env
                    (OffPolicyAlgorithm.call_explore explore (counted off) state).1
                    e state (t + 1)%Z
                    (OffPolicyAlgorithm.call_explore explore (counted off) state).2)
        as Hb.
      unfold OffPolicyAlgorithm.call_explore in *. simpl in *.
      destruct (explore _ _ state) as [[p r0] a]. simpl in *.
      destruct (Gym.step env _ _) as [e1 [[[ns r] d] info]]. exact Hb.
Qed.

Lemma step_with_counters env off e state t action :
  let off' :=
    (OffPolicyAlgorithm.step_with Buffer_append env off e state t action).1.1 in
  OffPolicyAlgorithm.env_step off' = OffPolicyAlgorithm.env_step off ∧
  OffPolicyAlgorithm.start_steps off' = OffPolicyAlgorithm.start_steps off.
Proof.
  unfold OffPolicyAlgorithm.step_with.
  destruct (Gym.step env action e) as [e1 [[[ns r] d] info]].
  destruct d; [destruct (Gym.reset env e1)|]; done.
Qed.

(** One call of [step] adds one to [env_step] and leaves [start_steps]. *)
Lemma step_counters env off e state t :
  let off' :=
    (OffPolicyAlgorithm.step explore Buffer_append env off e state t).1.1 in
  OffPolicyAlgorithm.env_step off' = (OffPolicyAlgorithm.env_step off + 1)%Z ∧
  OffPolicyAlgorithm.start_steps off' = OffPolicyAlgorithm.start_steps off.
Proof.
  destruct (warm_up off) eqn:Hw; simpl.
  - rewrite (off_step_warm_up _ _ _ _ _ Hw).
    destruct (step_with_counters env (counted off)
                (Gym.action_space_sample env e).1 state (t + 1)%Z
                (Gym.action_space_sample env e).2) as [H1 H2].
    by rewrite H1, H2.
  - rewrite (off_step_explore _ _ _ _ _ Hw).
    destruct (step_with_counters env
                (OffPolicyAlgorithm.call_explore explore (counted off) state).1
                e state (t + 1)%Z
                (OffPolicyAlgorithm.call_explore explore (counted off) state).2)
      as [H1 H2].
    rewrite H1, H2. unfold OffPolicyAlgorithm.call_explore.
    by destruct (explore _ _ state) as [[p r] a].
Qed.

Lemma steps_counters k env off e state t :
  let off' :=
    (OffPolicyAlgorithm.steps explore Buffer_append k env off e state t).1.1 in
  OffPolicyAlgorithm.env_step off' =
    (OffPolicyAlgorithm.env_step off + Z.of_nat k)%Z ∧
  OffPolicyAlgorithm.start_steps off' = OffPolicyAlgorithm.start_steps off.
Proof.
  induction k as [|k IH].
  - simpl. split; [lia|done].
  - simpl in *.
    destruct (OffPolicyAlgorithm.steps explore Buffer_append k env off e state t)
      as [[off1 e1] [s1 t1]].
    simpl in IH. destruct IH as [IH1 IH2].
    destruct (step_counters env off1 e1 s1 t1) as [H1 H2].
    simpl in H1, H2. rewrite H1, H2, IH1, IH2. split; [lia|done].
Qed.

(** C9. A call of the off-policy [step] whose incremented [env_step] is
    at most [start_steps] takes its action from
    [env.action_space.sample()] and leaves the policy and its random
    stream alone; any later call takes it from [self.explore(state)] and
    leaves the environment's sampler alone.  Counting from a fresh object
    ([env_step = 0]), call number [k + 1] is of the first kind exactly
    when [k + 1 <= start_steps]. *)
Theorem step_warm_up_then_explore :
  (∀ env off (e : E) (state : Obs) (t : Z),
     (OffPolicyAlgorithm.env_step off + 1 ≤ OffPolicyAlgorithm.start_steps off)%Z →
     OffPolicyAlgorithm.step explore Buffer_append env off e state t =
       OffPolicyAlgorithm.step_with Buffer_append env (counted off)
         (Gym.action_space_sample env e).1 state (t + 1)%Z
         (Gym.action_space_sample env e).2) ∧
  (∀ env off (e : E) (state : Obs) (t : Z),
     (OffPolicyAlgorithm.start_steps off < OffPolicyAlgorithm.env_step off + 1)%Z →
     let chosen := OffPolicyAlgorithm.call_explore explore (counted off) state in
     OffPolicyAlgorithm.step explore Buffer_append env off e state t =
       OffPolicyAlgorithm.step_with Buffer_append env chosen.1 e state
         (t + 1)%Z chosen.2 ∧
     chosen.2 =
       (explore (OffPolicyAlgorithm.policy off)
          (Algorithm.rng (OffPolicyAlgorithm.super off)) state).2) ∧
  (∀ (k : nat) env off (e : E) (state : Obs) (t : Z),
     OffPolicyAlgorithm.env_step off = 0%Z →
     let off' :=
       (OffPolicyAlgorithm.steps explore Buffer_append k env off e state t).1.1 in
     OffPolicyAlgorithm.env_step off' = Z.of_nat k ∧
     (warm_up off' = true ↔
      (Z.of_nat (S k) ≤ OffPolicyAlgorithm.start_steps off)%Z)).
Proof.
  split; [|split].
  - intros env off e state t Hle. apply off_step_warm_up.
    unfold warm_up. by apply Z.leb_le.
  - intros env off e state t Hlt chosen. split.
    + apply off_step_explore. unfold warm_up. by apply Z.leb_gt.
    + subst chosen. unfold OffPolicyAlgorithm.call_explore. simpl.
      by destruct (explore _ _ state) as [[p r] a].
  - intros k env off e state t H0 off'.
    destruct (steps_counters k env off e state t) as [H1 H2].
    fold off' in H1, H2. rewrite H0 in H1. split; [lia|].
    unfold warm_up. rewrite Z.leb_le, H1, H2. lia.
Qed.

End Steps.

Section Construction.

Context {Rng Tensor Policy Buffer : Type}.
Variable PRNGSequence : Z → Rng.
Variable space_sample : Gym.Space → Tensor.
Variable astype_float32 : Tensor → Tensor.
Variable PrioritizedReplayBuffer_init :
  Z → Gym.Space → Gym.Space → Q → nat → Q → result Buffer.
Variable ReplayBuffer_init :
  Z → Gym.Space → Gym.Space → Q → nat → result Buffer.



End Construction.

Import Examples.


End BaseTheory.

(** * Further properties of the replay buffer *)

Module BufferMore.

Import Numpy Buffer BufferTheory.

Section More.

Context {State Action : Type} {cast32 : Int32Cast Action}.
Implicit Types (b : ReplayBuffer State Action) (t : Transition State Action).
Implicit Type h : list (Transition State Action).

(** Number of rows, dtype and row shape of an array. *)
Definition geometry {A} (a : ndarray A) : nat * dtype * list nat :=
  (length (rows a), arr_dtype a, row_shape a).

(** The storage as [__init__] laid it out: the capacity and the geometry
    of the five arrays ([None] for an action array that was never bound). *)
Definition layout b :=
  (buffer_size b, geometry (state b), geometry <$> action b,
   geometry (reward b), geometry (done b), geometry (next_state b)).

(** A method that leaves the layout as it found it, whether it returns or
    raises. *)
Definition keeps_layout {A} (c : M (ReplayBuffer State Action) A) : Prop :=
  ∀ b, layout (c b).1 = layout b.

Lemma bind_keeps_layout {A B} (c : M (ReplayBuffer State Action) A)
    (k : A → M (ReplayBuffer State Action) B) :
  keeps_layout c → (∀ a, keeps_layout (k a)) → keeps_layout (c ≫= k).
Proof.
  intros Hc Hk b. unfold mbind, M_bind, bind.
  specialize (Hc b). destruct (c b) as [b1 [a|e]]; simpl in *.
  - by rewrite Hk.
  - done.
Qed.

Lemma setitem_geometry {A} (arr arr' : ndarray A) (i : nat) (x : A) :
  setitem arr i x = Ok arr' → geometry arr' = geometry arr.
Proof.
  unfold setitem. destruct (decide _); [|discriminate].
  intros [= <-]. unfold geometry. simpl. by rewrite length_insert.
Qed.

Ltac store_keeps :=
  let b := fresh "b" in
  let E := fresh "E" in
  intros b; unfold store, getattr_action;
  try (destruct (action b) eqn:?; [|done]);
  destruct (setitem _ _ _) eqn:E; [|done];
  apply setitem_geometry in E; simpl; unfold layout; simpl;
  repeat match goal with H : action _ = _ |- _ => rewrite H end; simpl;
  by rewrite E.

Lemma append_keeps_layout_M (s : State) (a : Action) (r : f64) (d : bool)
    (s' : State) :
  keeps_layout (append s a r d s').
Proof.
  unfold append.
  apply bind_keeps_layout; [store_keeps|intros _].
  apply bind_keeps_layout; [store_keeps|intros _].
  apply bind_keeps_layout; [store_keeps|intros _].
  apply bind_keeps_layout; [store_keeps|intros _].
  apply bind_keeps_layout; [store_keeps|intros _].
  apply bind_keeps_layout; [done|intros b1].
  apply bind_keeps_layout.
  { intros b. by destruct (py_mod _ _). }
  intros p. apply bind_keeps_layout; [done|intros _].
  apply bind_keeps_layout; [done|intros b2]. done.
Qed.

(** X1. [append] never resizes or retypes the storage: whatever the
    buffer and the arguments, and whether the call returns or raises, the
    capacity and the number of rows, dtype and row shape of every array
    are afterwards what they were, and an action array that was never
    bound stays unbound.  The same holds for any run of appends. *)
Theorem append_keeps_layout :
  (∀ b (s : State) (a : Action) (r : f64) (d : bool) (s' : State),
     layout (append s a r d s' b).1 = layout b) ∧
  (∀ (ts : list (Transition State Action)) b,
     layout (appends ts b).1 = layout b).
Proof.
  split.
  - intros b s a r d s'. apply append_keeps_layout_M.
  - induction ts as [|t ts IH]; intros b; [done|].
    simpl. apply bind_keeps_layout; [|intros _ b0; apply IH].
    intros b0. apply append_keeps_layout_M.
Qed.

(** X2. A buffer built with capacity 0 can hold nothing: every [append]
    raises IndexError at its first statement and leaves the buffer exactly
    as it was, so does every non-empty run of appends, and every
    [sample(batch_size)] with [batch_size >= 1] raises ValueError. *)
Theorem capacity_zero_rejects_appends :
  ∀ (mem : Uninit State Action) (state_space action_space : Gym.Space),
    let b := __init__ mem 0 state_space action_space in
    (∀ (s : State) (a : Action) (r : f64) (d : bool) (s' : State),
       append s a r d s' b = (b, Raise IndexError)) ∧
    (∀ t (ts : list (Transition State Action)),
       appends (t :: ts) b = (b, Raise IndexError)) ∧
    (∀ batch_size : nat, 1 ≤ batch_size →
       sample batch_size b = [(b, Raise ValueError)]).
Proof.
  intros mem ss acs b.
  assert (∀ (s : State) (a : Action) (r : f64) (d : bool) (s' : State),
            append s a r d s' b = (b, Raise IndexError)) as Happ.
  { intros s a r d s'. unfold append.
    apply bind_Raise. subst b. by destruct acs. }
  split; [exact Happ|]. split.
  - intros t ts. simpl. apply bind_Raise. apply Happ.
  - intros bs Hbs. unfold sample, randint.
    replace (_n b) with 0 by (subst b; by destruct acs).
    rewrite decide_False by lia. by rewrite decide_True by lia.
Qed.

(** The rows [np.empty] left at index [i]. *)
Definition junk_row (mem : Uninit State Action) (i : nat) : Row State Action :=
  (junk_state _ _ mem i, junk_action _ _ mem i, junk_reward _ _ mem i,
   junk_done _ _ mem i, junk_next_state _ _ mem i).

Lemma slot_init (mem : Uninit State Action) C state_space action_space i :
  supported action_space = true → i < C →
  slot (__init__ mem C state_space action_space) i = Some (junk_row mem i).
Proof.
  intros Hsup Hi. unfold slot, junk_row.
  assert (∀ {A} (f : nat → A), (f <$> seq 0 C) !! i = Some (f i)) as Hl.
  { intros A f. rewrite list_lookup_fmap.
    by rewrite (proj2 (lookup_seq 0 C i i)). }
  destruct action_space; try discriminate; simpl; unfold empty; simpl;
    by rewrite !Hl.
Qed.

(** While the run is no longer than the capacity, the slots from the
    number of appends on are as [b0] had them. *)
Lemma appends_untouched ts b h b0 :
  tracks b h → length h + length ts ≤ buffer_size b →
  (∀ i, length h ≤ i → slot b i = slot b0 i) →
  ∃ b', appends ts b = (b', Ok tt) ∧ tracks b' (h ++ ts) ∧
        buffer_size b' = buffer_size b ∧
        ∀ i, length h + length ts ≤ i → slot b' i = slot b0 i.
Proof.
  revert b h. induction ts as [|t ts IH]; intros b h Htr Hlen Hun.
  - exists b. rewrite app_nil_r. simpl in *.
    split; [done|]. split; [done|]. split; [done|].
    intros i Hi. apply Hun. lia.
  - simpl in Hlen.
    destruct (tracks_append b h t Htr) as (arr & Harr & Htr').
    pose proof (tracks_in_bounds _ _ Htr) as [Hp _].
    assert (_p b = length h) as Hpe.
    { destruct Htr as (_ & _ & -> & _). apply Nat.mod_small. lia. }
    destruct (IH _ (h ++ [t]) Htr') as (b' & Hrun & Hb' & HC & Hun').
    + rewrite length_app. simpl. lia.
    + intros i Hi. rewrite length_app in Hi. simpl in Hi.
      rewrite slot_appended_ne; [apply Hun; lia|done|lia].
    + exists b'. split; [|split; [|split]].
      * simpl. erewrite bind_Ok; [exact Hrun|].
        unfold append_transition. apply append_run; [apply Htr|done|done].
      * by rewrite <- app_assoc in Hb'.
      * exact HC.
      * intros i Hi. apply Hun'. rewrite length_app. simpl in *. lia.
Qed.

(** X3. Before the buffer wraps.  A run of [k <= C] appends into a fresh
    buffer (Box or Discrete actions) returns, leaves the fill count and
    the cursor's position at [k] (the cursor at 0 again when [k = C]),
    holds the transitions in the order appended, transition [i] in slot
    [i], and leaves every slot from [k] on exactly as [np.empty] left
    it. *)
Theorem appends_before_wrap :
  ∀ (mem : Uninit State Action) C state_space action_space
    (ts : list (Transition State Action)),
    supported action_space = true → length ts ≤ C →
    ∃ b', appends ts (__init__ mem C state_space action_space) = (b', Ok tt) ∧
          _n b' = length ts ∧
          _p b' = (if decide (length ts = C) then 0 else length ts) ∧
          (∀ i, i < length ts → slot b' i = stored <$> ts !! i) ∧
          (∀ i, length ts ≤ i < C → slot b' i = Some (junk_row mem i)).
Proof.
  intros mem C ss acs ts Hsup Hlen.
  destruct (decide (C = 0)) as [->|HC0].
  { destruct ts; [|simpl in Hlen; lia].
    eexists. split; [reflexivity|]. simpl.
    split; [by destruct acs|]. split; [by destruct acs|].
    split; intros i Hi; lia. }
  assert (1 ≤ C) as HC by lia.
  set (b0 := __init__ mem C ss acs).
  assert (buffer_size b0 = C) as Hb0 by (subst b0; by destruct acs).
  destruct (appends_untouched ts b0 [] b0 (init_tracks mem C ss acs HC Hsup))
    as (b' & Hrun & Htr & HCb & Hun); [simpl; lia|done|].
  simpl in Htr, Hun. rewrite Hb0 in HCb.
  destruct Htr as (_ & _ & Hp & Hn & Hslots). rewrite HCb in *.
  exists b'. split; [done|]. split; [lia|]. split.
  { rewrite Hp. destruct (decide (length ts = C)) as [->|].
    - apply Nat.Div0.mod_same.
    - apply Nat.mod_small. lia. }
  split.
  - intros i Hi. rewrite <- (Nat.mod_small i C) at 1 by lia.
    apply Hslots. lia.
  - intros i [Hi1 Hi2]. rewrite Hun by done. by apply slot_init.
Qed.

Lemma add_mod_cursor (C k d : nat) :
  C ≤ k → (k - C + d) mod C = (k mod C + d) mod C.
Proof.
  intros Hk. rewrite <- (Nat.Div0.add_mod_idemp_l (k - C) d C).
  by rewrite sub_mod_same.
Qed.

(** X4. First in, first out.  After [k >= C] appends into a fresh buffer
    of capacity [C >= 1], reading the slots from the cursor on, wrapping
    at the end, gives the last [C] transitions oldest first: slot
    [(p + d) mod C] holds transition [k - C + d]. *)
Theorem slots_from_cursor_are_oldest_first :
  ∀ (mem : Uninit State Action) C state_space action_space
    (ts : list (Transition State Action)),
    1 ≤ C → supported action_space = true → C ≤ length ts →
    ∃ b', appends ts (__init__ mem C state_space action_space) = (b', Ok tt) ∧
          (∀ d, d < C →
             slot b' ((_p b' + d) mod C) = stored <$> ts !! (length ts - C + d)) ∧
          (λ d, slot b' ((_p b' + d) mod C)) <$> seq 0 C =
            (λ t, Some (stored t)) <$> drop (length ts - C) ts.
Proof.
  intros mem C ss acs ts HC Hsup Hlen.
  destruct (appends_tracks ts _ [] (init_tracks mem C ss acs HC Hsup))
    as (b' & Hrun & Htr & HCb).
  replace (buffer_size (__init__ mem C ss acs)) with C in HCb
    by (by destruct acs).
  simpl in Htr. destruct Htr as (_ & _ & Hp & _ & Hslots).
  rewrite HCb in *.
  assert (∀ d, d < C →
            slot b' ((_p b' + d) mod C) = stored <$> ts !! (length ts - C + d))
    as Hread.
  { intros d Hd. rewrite Hp, <- add_mod_cursor by done. apply Hslots. lia. }
  exists b'. split; [done|]. split; [exact Hread|].
  apply list_eq. intros d.
  rewrite !list_lookup_fmap, lookup_drop.
  destruct (decide (d < C)) as [Hd|Hd].
  - rewrite (proj2 (lookup_seq 0 C d d)) by lia. simpl.
    rewrite Hread by done.
    destruct (lookup_lt_is_Some_2 ts (length ts - C + d)) as [t Ht]; [lia|].
    by rewrite Ht.
  - rewrite (lookup_ge_None_2 (seq 0 C)) by (rewrite length_seq; lia).
    rewrite (lookup_ge_None_2 ts) by lia. done.
Qed.

(** Row [k] of a returned batch, read across its five arrays. *)
Definition batch_row (batch : Batch State Action) (k : nat)
  : option (Row State Action) :=
  let '(s, a, r, d, s') := batch in
  x1 ← rows s !! k;
  x2 ← rows a !! k;
  x3 ← rows r !! k;
  x4 ← rows d !! k;
  x5 ← rows s' !! k;
  Some (x1, x2, x3, x4, x5).

Lemma tracks_recent b h i :
  tracks b h → i < _n b →
  ∃ j t, length h - buffer_size b ≤ j < length h ∧ h !! j = Some t ∧
         slot b i = Some (stored t).
Proof.
  intros (Hal & HC & Hp & Hn & Hslots) Hi.
  destruct (decide (length h < buffer_size b)) as [Hlt|Hge].
  - assert (i < length h) as Hih by lia.
    destruct (lookup_lt_is_Some_2 h i Hih) as [t Ht].
    exists i, t. split; [lia|]. split; [done|].
    specialize (Hslots i ltac:(lia)).
    rewrite Nat.mod_small in Hslots by lia.
    by rewrite Hslots, Ht.
  - destruct (last_step_in_slot_spec (buffer_size b) (length h) i)
      as [Hw Hm]; [lia..|].
    set (j := last_step_in_slot (buffer_size b) (length h) i) in *.
    destruct (lookup_lt_is_Some_2 h j ltac:(lia)) as [t Ht].
    exists j, t. split; [done|]. split; [done|].
    specialize (Hslots j Hw). by rewrite Hm, Ht in Hslots.
Qed.

(** A stored row as [sample] hands it out: the action of an int64 array
    cast to int32, everything else as stored. *)
Definition device_row (d : dtype) (row : Row State Action) : Row State Action :=
  match d with
  | int64 => let '(s, a, r, dn, s') := row in (s, int32_of a, r, dn, s')
  | _ => row
  end.

(** The same, by the action space the buffer was built for. *)
Definition returned_row (action_space : Gym.Space) (row : Row State Action)
  : Row State Action :=
  match action_space with
  | Gym.Discrete _ => device_row int64 row
  | _ => row
  end.

Lemma appends_layout (ts : list (Transition State Action)) b :
  layout (appends ts b).1 = layout b.
Proof.
  revert b. induction ts as [|t ts IH]; intros b; [done|].
  simpl. apply bind_keeps_layout; [|intros _ b0; apply IH].
  intros b0. apply append_keeps_layout_M.
Qed.

Lemma layout_typed b b0 : layout b = layout b0 → typed b0 → typed b.
Proof.
  unfold layout, geometry, typed. intros [= _ _ E1 E2 _ _ E3 E4 _ E5 E6 _ E7 E8].
  by rewrite E1, E2, E3, E4, E5, E6, E7, E8.
Qed.

Lemma batch_row_slot b idxes batch k i arr :
  allocated b → typed b → Forall (λ i, i < buffer_size b) idxes →
  batch_at b idxes = Ok batch → idxes !! k = Some i → action b = Some arr →
  batch_row batch k = device_row (arr_dtype arr) <$> slot b i.
Proof.
  intros Hal Hty Hall Hb Hk Harr.
  destruct (batch_at_typed b idxes Hal Hty Hall)
    as (s & a & r & d & s' & arr' & Hb' & Ha & Gs & Ga & Gr & Gd & Gs').
  rewrite Harr in Ha. injection Ha as <-.
  rewrite Hb in Hb'. injection Hb' as ->.
  destruct Gs as (_ & _ & _ & Gs), Ga as (Hdt & _ & _ & Ga),
    Gr as (_ & _ & _ & Gr), Gd as (_ & _ & _ & Gd), Gs' as (_ & _ & _ & Gs').
  assert (rows (device_put int32_of a) !! k =
          fmap (M := option)
            (match arr_dtype arr with int64 => int32_of | _ => id end)
            (rows arr !! i)) as Hdev.
  { unfold device_put. rewrite Hdt.
    destruct (arr_dtype arr); simpl;
      rewrite ?list_lookup_fmap, (Ga _ _ Hk); by destruct (rows arr !! i). }
  unfold batch_row, slot. rewrite Harr. simpl.
  rewrite (Gs _ _ Hk). destruct (rows (state b) !! i); simpl; [|done].
  rewrite Hdev. destruct (rows arr !! i); simpl; [|done].
  rewrite (Gr _ _ Hk). destruct (rows (reward b) !! i); simpl; [|done].
  rewrite (Gd _ _ Hk). destruct (rows (done b) !! i); simpl; [|done].
  rewrite (Gs' _ _ Hk). destruct (rows (next_state b) !! i); simpl; [|done].
  by destruct (arr_dtype arr).
Qed.

(** X5. Sampling returns only what was appended and is still held.
    After a non-empty run of appends [ts] into a fresh buffer of capacity
    [C >= 1] (Box or Discrete actions), a call [sample(batch_size)] with
    [batch_size >= 1] has at least one outcome, none raises, none changes
    the buffer, and every row of every returned batch comes from one of
    the last [min(len(ts), C)] transitions of [ts], never from a row left
    by [np.empty] and never from a transition that was overwritten: for
    a Box action space it is that transition's stored row, for a Discrete
    one its stored row with the action index cast to int32. *)
Theorem sample_returns_appended :
  ∀ (mem : Uninit State Action) C state_space action_space
    (ts : list (Transition State Action)) (batch_size : nat),
    1 ≤ C → supported action_space = true → 1 ≤ length ts → 1 ≤ batch_size →
    ∃ b', appends ts (__init__ mem C state_space action_space) = (b', Ok tt) ∧
          sample batch_size b' ≠ [] ∧
          ∀ o, o ∈ sample batch_size b' →
            ∃ batch, o = (b', Ok batch) ∧
              ∀ k, k < batch_size →
                ∃ j t, length ts - C ≤ j < length ts ∧ ts !! j = Some t ∧
                       batch_row batch k =
                         Some (returned_row action_space (stored t)).
Proof.
  intros mem C ss acs ts bs HC Hsup Hts Hbs.
  set (b0 := __init__ mem C ss acs).
  destruct (appends_tracks ts _ [] (init_tracks mem C ss acs HC Hsup))
    as (b' & Hrun & Htr & HCb).
  fold b0 in Hrun, HCb.
  replace (buffer_size b0) with C in HCb by (subst b0; by destruct acs).
  simpl in Htr. pose proof Htr as (Hal & _ & _ & Hn & _).
  rewrite HCb in Hn.
  pose proof (appends_layout ts b0) as Hlay. rewrite Hrun in Hlay.
  simpl in Hlay.
  assert (typed b') as Hty.
  { apply (layout_typed _ b0 Hlay). subst b0. unfold typed. by destruct acs. }
  pose proof Hal as (_ & (arr & Harr & _) & _).
  assert (returned_row acs = device_row (arr_dtype arr)) as Hret.
  { unfold layout in Hlay. rewrite Harr in Hlay.
    apply (f_equal (λ l, l.1.1.1.2)) in Hlay. simpl in Hlay.
    subst b0. destruct acs; try discriminate; simpl in Hlay;
      injection Hlay as _ Hg _; unfold returned_row; by rewrite Hg. }
  destruct (NumpyTheory.randint_uniform 0 (_n b') bs Hbs ltac:(lia))
    as (draws & Hdraw & _ & Hlen & Hmem).
  exists b'. split; [done|].
  unfold sample. rewrite Hdraw. split.
  { intros Hnil. apply (f_equal length) in Hnil.
    rewrite length_fmap, Hlen in Hnil. simpl in Hnil.
    assert (_n b' - 0 ≠ 0) as Hpos by lia.
    pose proof (Nat.pow_nonzero (_n b' - 0) bs Hpos). lia. }
  intros o Ho. apply list_elem_of_fmap in Ho as (idxes & -> & Hin).
  apply Hmem in Hin as [Hl Hall].
  assert (Forall (λ i, i < buffer_size b') idxes) as Hall'.
  { eapply Forall_impl; [exact Hall|]. intros i Hi. simpl in *. lia. }
  destruct (batch_at_typed b' idxes Hal Hty Hall')
    as (s & a & r & d & s' & arr' & Hb & _).
  eexists. split; [by rewrite Hb|].
  intros k Hk.
  destruct (lookup_lt_is_Some_2 idxes k ltac:(lia)) as [i Hi].
  pose proof (proj1 (Forall_lookup _ _) Hall k i Hi) as Hin. simpl in Hin.
  destruct (tracks_recent b' ts i Htr ltac:(lia)) as (j & t & Hw & Ht & Hs).
  exists j, t. rewrite HCb in Hw. split; [done|]. split; [done|].
  rewrite (batch_row_slot b' idxes _ k i arr Hal Hty Hall' Hb Hi Harr).
  by rewrite Hs, Hret.
Qed.

End More.

Import Examples.

Lemma appends_before_wrap_witness :
  (supported (Gym.Discrete 4) = true ∧ length (tr <$> seq 1 2) ≤ 5) ∧
  ∃ b', appends (tr <$> seq 1 2) b5 = (b', Ok tt) ∧
        _n b' = 2 ∧ _p b' = 2 ∧
        slot b' 1 = Some (stored (tr 2)) ∧
        slot b' 4 = Some (junk_row mem0 4).
Proof.
  split; [split; [reflexivity|simpl; lia]|].
  destruct (@appends_before_wrap nat Z mem0 5 (Gym.Box [3]) (Gym.Discrete 4)
              (tr <$> seq 1 2)) as (b' & Hrun & Hn & Hp & Hs & Hj);
    [reflexivity|simpl; lia|].
  exists b'. split; [exact Hrun|]. split; [exact Hn|]. split; [exact Hp|].
  split; [apply (Hs 1); simpl; lia|apply (Hj 4); simpl; lia].
Defined.

Lemma slots_from_cursor_witness :
  (1 ≤ 5 ∧ supported (Gym.Discrete 4) = true ∧ 5 ≤ length (tr <$> seq 1 7)) ∧
  ∃ b', appends (tr <$> seq 1 7) b5 = (b', Ok tt) ∧
        (λ d, slot b' ((_p b' + d) mod 5)) <$> seq 0 5 =
          (λ t, Some (stored t)) <$> (tr <$> seq 3 5).
Proof.
  split; [split; [lia|split; [reflexivity|simpl; lia]]|].
  destruct (@slots_from_cursor_are_oldest_first nat Z mem0 5 (Gym.Box [3])
              (Gym.Discrete 4) (tr <$> seq 1 7))
    as (b' & Hrun & _ & Hl); [lia|reflexivity|simpl; lia|].
  exists b'. split; [exact Hrun|exact Hl].
Defined.

Lemma sample_returns_appended_witness :
  (1 ≤ 5 ∧ supported (Gym.Discrete 4) = true ∧
   1 ≤ length (tr <$> seq 1 7) ∧ 1 ≤ 3) ∧
  ∃ b', appends (tr <$> seq 1 7) b5 = (b', Ok tt) ∧
        sample 3 b' ≠ [] ∧
        ∀ o, o ∈ sample 3 b' →
          ∃ batch, o = (b', Ok batch) ∧
            ∀ k, k < 3 →
              ∃ j t, length (tr <$> seq 1 7) - 5 ≤ j < length (tr <$> seq 1 7) ∧
                     (tr <$> seq 1 7) !! j = Some t ∧
                     batch_row batch k =
                       Some (returned_row (Gym.Discrete 4) (stored t)).
Proof.
  split; [split; [lia|split; [reflexivity|split; [simpl; lia|lia]]]|].
  apply (@sample_returns_appended nat Z _ mem0 5 (Gym.Box [3]) (Gym.Discrete 4)
           (tr <$> seq 1 7) 3); [lia|reflexivity|simpl; lia|lia].
Defined.

End BufferMore.

(** * Further properties of the algorithm base classes *)

Module BaseMore.

Import BaseTheory.

(** The random stream after [j] calls of [next]. *)
Fixpoint advance {Rng Key} (next : Rng → Key * Rng) (j : nat) (rng : Rng) : Rng :=
  match j with
  | 0 => rng
  | S j' => (next (advance next j' rng)).2
  end.

Section OnPolicyRuns.

Context {Rng Tensor Key Params E Obs Act Reward Info LogPi : Type}.
Context {RolloutBuffer : Type}.
Variable next : Rng → Key * Rng.
Variable _explore : Params → Key → Obs → Act * LogPi.
Variable RolloutBuffer_append :
  RolloutBuffer → Obs → Act → Reward → bool → LogPi → Obs → RolloutBuffer.

Implicit Type on : OnPolicyActorCritic.obj Rng Tensor Params RolloutBuffer.
Implicit Type env : Gym.Env E Obs Act Reward Info.

(** What one call of the on-policy [step] does to the counters, the
    hyperparameters, the parameters and the random stream. *)
Lemma on_step_fields env on e state t :
  let on' :=
    (OnPolicyActorCritic.step next _explore RolloutBuffer_append env on e
       state t).1.1 in
  OnPolicyActorCritic.env_step on' = (OnPolicyActorCritic.env_step on + 1)%Z ∧
  OnPolicyActorCritic.buffer_size on' = OnPolicyActorCritic.buffer_size on ∧
  OnPolicyActorCritic.params_actor on' = OnPolicyActorCritic.params_actor on ∧
  Algorithm.rng (OnPolicyActorCritic.super on') =
    (next (Algorithm.rng (OnPolicyActorCritic.super on))).2.
Proof.
  unfold OnPolicyActorCritic.step, OnPolicyActorCritic.explore. simpl.
  destruct (next _) as [key rng']. simpl.
  destruct (_explore _ key state) as [action log_pi].
  destruct (Gym.step env action e) as [e1 [[[ns r] d] info]].
  destruct d; [destruct (Gym.reset env e1)|]; done.
Qed.

Lemma on_steps_fields k env on e state t :
  let on' :=
    (OnPolicyActorCritic.steps next _explore RolloutBuffer_append k env on e
       state t).1.1 in
  OnPolicyActorCritic.env_step on' =
    (OnPolicyActorCritic.env_step on + Z.of_nat k)%Z ∧
  OnPolicyActorCritic.buffer_size on' = OnPolicyActorCritic.buffer_size on ∧
  OnPolicyActorCritic.params_actor on' = OnPolicyActorCritic.params_actor on ∧
  Algorithm.rng (OnPolicyActorCritic.super on') =
    advance next k (Algorithm.rng (OnPolicyActorCritic.super on)).
Proof.
  induction k as [|k IH].
  - simpl. split; [lia|done].
  - simpl in *.
    destruct (OnPolicyActorCritic.steps next _explore RolloutBuffer_append k
                env on e state t) as [[on1 e1] [s1 t1]].
    simpl in IH. destruct IH as (IH1 & IH2 & IH3 & IH4).
    destruct (on_step_fields env on1 e1 s1 t1) as (H1 & H2 & H3 & H4).
    simpl in H1, H2, H3, H4.
    rewrite H1, H2, H3, H4, IH1, IH2, IH3, IH4.
    split; [lia|done].
Qed.

(** X6. Update cadence of an on-policy run.  After [k] calls of [step]
    on an object that stood at [env_step = n], [is_update()] returns
    [True] exactly when [buffer_size] is non-zero and divides [n + k];
    the calls leave [buffer_size] alone.  So counted from construction
    ([n = 0]) the update is due after every [buffer_size]-th step, and
    also before the first step, when nothing has been collected yet. *)
Theorem on_policy_run_cadence :
  (∀ (k : nat) env on (e : E) (state : Obs) (t : Z),
     let on' :=
       (OnPolicyActorCritic.steps next _explore RolloutBuffer_append k env on
          e state t).1.1 in
     OnPolicyActorCritic.buffer_size on' = OnPolicyActorCritic.buffer_size on ∧
     (OnPolicyActorCritic.is_update on' = Ok true ↔
      OnPolicyActorCritic.buffer_size on ≠ 0%Z ∧
      ((OnPolicyActorCritic.env_step on + Z.of_nat k)
         mod OnPolicyActorCritic.buffer_size on = 0)%Z)) ∧
  (∀ on, OnPolicyActorCritic.env_step on = 0%Z →
         OnPolicyActorCritic.buffer_size on ≠ 0%Z →
         OnPolicyActorCritic.is_update on = Ok true).
Proof.
  split.
  - intros k env on e state t on'.
    destruct (on_steps_fields k env on e state t) as (H1 & H2 & _).
    fold on' in H1, H2. split; [done|].
    rewrite on_is_update_true, H1, H2. done.
  - intros on H0 Hb. apply on_is_update_true. split; [done|].
    rewrite H0. apply Z.mod_0_l. done.
Qed.

(** X7. Key hygiene of an on-policy run.  Every call of [step] takes
    exactly one key from the random stream and leaves the actor's
    parameters alone: after [k] calls the stream has advanced [k] times,
    and the next [explore] is [_explore] on the key that follows them. *)
Theorem on_policy_step_takes_one_key :
  ∀ (k : nat) env on (e : E) (state s' : Obs) (t : Z),
    let on' :=
      (OnPolicyActorCritic.steps next _explore RolloutBuffer_append k env on
         e state t).1.1 in
    let rng0 := Algorithm.rng (OnPolicyActorCritic.super on) in
    Algorithm.rng (OnPolicyActorCritic.super on') = advance next k rng0 ∧
    OnPolicyActorCritic.params_actor on' = OnPolicyActorCritic.params_actor on ∧
    (OnPolicyActorCritic.explore next _explore on' s').2 =
      _explore (OnPolicyActorCritic.params_actor on)
        (next (advance next k rng0)).1 s' ∧
    Algorithm.rng
      (OnPolicyActorCritic.super
         (OnPolicyActorCritic.explore next _explore on' s').1) =
      advance next (S k) rng0.
Proof.
  intros k env on e state s' t on' rng0.
  destruct (on_steps_fields k env on e state t) as (_ & _ & H3 & H4).
  fold on' in H3, H4. fold rng0 in H4.
  split; [done|]. split; [done|].
  unfold OnPolicyActorCritic.explore. rewrite H3, H4. simpl.
  destruct (next (advance next k rng0)) as [key rng']. simpl.
  by destruct (_explore _ key s').
Qed.

End OnPolicyRuns.

Section OffPolicyRuns.

Context {Rng Tensor Policy E Obs Act Reward Info Buffer : Type}.
Variable explore : Policy → Rng → Obs → Policy * Rng * Act.
Variable Buffer_append :
  Buffer → Obs → Act → Reward → bool → Obs → bool → Buffer.

Implicit Type off : OffPolicyAlgorithm.obj Rng Tensor Policy Buffer.
Implicit Type env : Gym.Env E Obs Act Reward Info.

(** What one call of the off-policy [step] does to the counters and the
    hyperparameters, and to the policy and the random stream: a call of
    the warm-up window leaves the last two alone, any other call leaves
    them as [explore] returned them. *)
Lemma off_step_fields env off e state t :
  let off' :=
    (OffPolicyAlgorithm.step explore Buffer_append env off e state t).1.1 in
  OffPolicyAlgorithm.env_step off' = (OffPolicyAlgorithm.env_step off + 1)%Z ∧
  OffPolicyAlgorithm.start_steps off' = OffPolicyAlgorithm.start_steps off ∧
  OffPolicyAlgorithm.update_interval off' = OffPolicyAlgorithm.update_interval off ∧
  (OffPolicyAlgorithm.policy off', Algorithm.rng (OffPolicyAlgorithm.super off')) =
    if warm_up off
    then (OffPolicyAlgorithm.policy off,
          Algorithm.rng (OffPolicyAlgorithm.super off))
    else (explore (OffPolicyAlgorithm.policy off)
            (Algorithm.rng (OffPolicyAlgorithm.super off)) state).1.
Proof.
  unfold OffPolicyAlgorithm.step, warm_up. simpl.
  change (OffPolicyAlgorithm.env_step
            (OffPolicyAlgorithm.set_super
               (Algorithm.set_env_step (OffPolicyAlgorithm.env_step off + 1)
                  (OffPolicyAlgorithm.super off)) off))
    with (OffPolicyAlgorithm.env_step off + 1)%Z.
  destruct (OffPolicyAlgorithm.env_step off + 1
              <=? OffPolicyAlgorithm.start_steps off)%Z.
  - destruct (Gym.action_space_sample env e) as [e0 action].
    unfold OffPolicyAlgorithm.step_with.
    destruct (Gym.step env action e0) as [e1 [[[ns r] d] info]].
    destruct d; [destruct (Gym.reset env e1)|]; done.
  - unfold OffPolicyAlgorithm.call_explore. simpl.
    destruct (explore _ _ state) as [[p r0] action].
    unfold OffPolicyAlgorithm.step_with.
    destruct (Gym.step env action e) as [e1 [[[ns r] d] info]].
    destruct d; [destruct (Gym.reset env e1)|]; done.
Qed.

Lemma off_steps_fields k env off e state t :
  let off' :=
    (OffPolicyAlgorithm.steps explore Buffer_append k env off e state t).1.1 in
  OffPolicyAlgorithm.env_step off' =
    (OffPolicyAlgorithm.env_step off + Z.of_nat k)%Z ∧
  OffPolicyAlgorithm.start_steps off' = OffPolicyAlgorithm.start_steps off ∧
  OffPolicyAlgorithm.update_interval off' = OffPolicyAlgorithm.update_interval off.
Proof.
  induction k as [|k IH].
  - simpl. split; [lia|done].
  - simpl in *.
    destruct (OffPolicyAlgorithm.steps explore Buffer_append k env off e state t)
      as [[off1 e1] [s1 t1]].
    simpl in IH. destruct IH as (IH1 & IH2 & IH3).
    destruct (off_step_fields env off1 e1 s1 t1) as (H1 & H2 & H3 & _).
    simpl in H1, H2, H3. rewrite H1, H2, H3, IH1, IH2, IH3.
    split; [lia|done].
Qed.

(** X8. Update cadence of an off-policy run.  After [k] calls of [step]
    on an object that stood at [env_step = n], [is_update()] returns
    [True] exactly when [update_interval] is non-zero and divides
    [n + k] and [n + k >= start_steps]; with [update_interval = 0] it
    raises ZeroDivisionError after any number of calls.  The calls leave
    [start_steps] and [update_interval] alone. *)
Theorem off_policy_run_cadence :
  ∀ (k : nat) env off (e : E) (state : Obs) (t : Z),
    let off' :=
      (OffPolicyAlgorithm.steps explore Buffer_append k env off e state t).1.1 in
    let n := OffPolicyAlgorithm.env_step off in
    OffPolicyAlgorithm.start_steps off' = OffPolicyAlgorithm.start_steps off ∧
    OffPolicyAlgorithm.update_interval off' =
      OffPolicyAlgorithm.update_interval off ∧
    (OffPolicyAlgorithm.is_update off' = Ok true ↔
     OffPolicyAlgorithm.update_interval off ≠ 0%Z ∧
     ((n + Z.of_nat k) mod OffPolicyAlgorithm.update_interval off = 0)%Z ∧
     (OffPolicyAlgorithm.start_steps off ≤ n + Z.of_nat k)%Z) ∧
    (OffPolicyAlgorithm.update_interval off = 0%Z →
     OffPolicyAlgorithm.is_update off' = Raise ZeroDivisionError).
Proof.
  intros k env off e state t off' n.
  destruct (off_steps_fields k env off e state t) as (H1 & H2 & H3).
  fold off' in H1, H2, H3. fold n in H1.
  split; [done|]. split; [done|]. split.
  - by rewrite off_is_update_true, H1, H2, H3.
  - intros H0. unfold OffPolicyAlgorithm.is_update, py_modZ.
    by rewrite H3, H0.
Qed.

(** X9. The step that reaches [start_steps].  The call of [step] that
    brings [env_step] to exactly [start_steps] still takes its action
    from [env.action_space.sample()], and [is_update()] may already be
    [True] right after it: it is, exactly when [update_interval] is
    non-zero and divides [start_steps].  The call after it is the first
    to use [explore]. *)
Theorem warm_up_meets_first_update :
  ∀ env off (e : E) (state : Obs) (t : Z),
    (OffPolicyAlgorithm.env_step off + 1 = OffPolicyAlgorithm.start_steps off)%Z →
    let out := OffPolicyAlgorithm.step explore Buffer_append env off e state t in
    out =
      OffPolicyAlgorithm.step_with Buffer_append env (counted off)
        (Gym.action_space_sample env e).1 state (t + 1)%Z
        (Gym.action_space_sample env e).2 ∧
    OffPolicyAlgorithm.policy out.1.1 = OffPolicyAlgorithm.policy off ∧
    (OffPolicyAlgorithm.is_update out.1.1 = Ok true ↔
     OffPolicyAlgorithm.update_interval off ≠ 0%Z ∧
     (OffPolicyAlgorithm.start_steps off
        mod OffPolicyAlgorithm.update_interval off = 0)%Z) ∧
    warm_up out.1.1 = false.
Proof.
  intros env off e state t Heq out.
  assert (warm_up off = true) as Hw.
  { unfold warm_up. apply Z.leb_le. lia. }
  destruct (off_step_fields env off e state t) as (H1 & H2 & H3 & H4).
  fold out in H1, H2, H3, H4. rewrite Hw in H4.
  split; [|split; [|split]].
  - subst out. unfold OffPolicyAlgorithm.step. fold (counted off).
    change (OffPolicyAlgorithm.env_step (counted off))
      with (OffPolicyAlgorithm.env_step off + 1)%Z.
    change (OffPolicyAlgorithm.start_steps (counted off))
      with (OffPolicyAlgorithm.start_steps off).
    unfold warm_up in Hw. rewrite Hw.
    by destruct (Gym.action_space_sample env e).
  - by injection H4.
  - rewrite off_is_update_true, H1, H2, H3, Heq. split.
    + intros (Hu & Hm & _). done.
    + intros (Hu & Hm). split; [done|]. split; [done|lia].
  - unfold warm_up. rewrite H1, H2. apply Z.leb_gt. lia.
Qed.

End OffPolicyRuns.

Section ActorCriticKeys.

Context {Rng Tensor Key Params E Obs Act Reward Info Buffer : Type}.
Variable next : Rng → Key * Rng.
Variable _explore : Params → Key → Obs → Act.
Variable Buffer_append :
  Buffer → Obs → Act → Reward → bool → Obs → bool → Buffer.

Implicit Type off : OffPolicyAlgorithm.obj Rng Tensor Params Buffer.
Implicit Type env : Gym.Env E Obs Act Reward Info.

(** X10. Key hygiene of an off-policy actor-critic run.  With
    [OffPolicyActorCritic.explore] as the exploration method, the calls of
    [step] in the warm-up window take no key from the random stream and
    every later call takes exactly one; none changes [params_actor].  On
    an object that stood at [env_step = n], [k] calls advance the stream
    [k - w] times, [w = max(start_steps - n, 0)] being the warm-up calls
    still due. *)
Theorem off_policy_warm_up_takes_no_key :
  ∀ (k : nat) env off (e : E) (state : Obs) (t : Z),
    let off' :=
      (OffPolicyAlgorithm.steps (OffPolicyActorCritic.explore next _explore)
         Buffer_append k env off e state t).1.1 in
    let w :=
      Z.to_nat (OffPolicyAlgorithm.start_steps off
                - OffPolicyAlgorithm.env_step off) in
    Algorithm.rng (OffPolicyAlgorithm.super off') =
      advance next (k - w) (Algorithm.rng (OffPolicyAlgorithm.super off)) ∧
    OffPolicyAlgorithm.policy off' = OffPolicyAlgorithm.policy off.
Proof.
  intros k env off e state t.
  set (ex := OffPolicyActorCritic.explore next _explore).
  set (w := Z.to_nat _).
  induction k as [|k IH]; [done|].
  cbn [OffPolicyAlgorithm.steps].
  pose proof (off_steps_fields ex Buffer_append k env off e state t)
    as (F1 & F2 & _).
  destruct (OffPolicyAlgorithm.steps ex Buffer_append k env off e state t)
    as [[off1 e1] [s1 t1]].
  cbn [fst snd] in IH, F1, F2. destruct IH as [IH1 IH2].
  destruct (off_step_fields ex Buffer_append env off1 e1 s1 t1)
    as (_ & _ & _ & H4).
  cbv zeta in H4. unfold warm_up in H4. rewrite F1, F2 in H4.
  cbv zeta.
  set (off2 := (OffPolicyAlgorithm.step ex Buffer_append env off1 e1 s1 t1).1.1)
    in *.
  destruct (Z.leb_spec
              (OffPolicyAlgorithm.env_step off + Z.of_nat k + 1)
              (OffPolicyAlgorithm.start_steps off)) as [Hle|Hgt].
  - injection H4 as Hp Hr. rewrite Hp, Hr, IH1, IH2. split; [|done].
    replace (S k - w) with 0 by lia. by replace (k - w) with 0 by lia.
  - subst ex. unfold OffPolicyActorCritic.explore in H4.
    destruct (next (Algorithm.rng (OffPolicyAlgorithm.super off1)))
      as [key rng'] eqn:Hnext.
    cbn [fst snd] in H4. injection H4 as Hp Hr. rewrite Hp, Hr.
    split; [|done].
    replace (S k - w) with (S (k - w)) by lia. cbn [advance].
    by rewrite <- IH1, Hnext.
Qed.

End ActorCriticKeys.

Section EpisodeCounter.

Context {Rng Tensor Key Params Policy E Obs Act Reward Info LogPi : Type}.
Context {RolloutBuffer Buffer : Type}.
Variable next : Rng → Key * Rng.
Variable _explore : Params → Key → Obs → Act * LogPi.
Variable RolloutBuffer_append :
  RolloutBuffer → Obs → Act → Reward → bool → LogPi → Obs → RolloutBuffer.
Variable explore : Policy → Rng → Obs → Policy * Rng * Act.
Variable Buffer_append :
  Buffer → Obs → Act → Reward → bool → Obs → bool → Buffer.

Implicit Type on : OnPolicyActorCritic.obj Rng Tensor Params RolloutBuffer.
Implicit Type off : OffPolicyAlgorithm.obj Rng Tensor Policy Buffer.
Implicit Type env : Gym.Env E Obs Act Reward Info.

Lemma on_step_counter env on e state t :
  let t' :=
    (OnPolicyActorCritic.step next _explore RolloutBuffer_append env on e
       state t).2.2 in
  t' = 0%Z ∨ t' = (t + 1)%Z.
Proof.
  unfold OnPolicyActorCritic.step, OnPolicyActorCritic.explore. simpl.
  destruct (next _) as [key rng']. simpl.
  destruct (_explore _ key state) as [action log_pi].
  destruct (Gym.step env action e) as [e1 [[[ns r] d] info]].
  destruct d; [destruct (Gym.reset env e1)|]; simpl; auto.
Qed.

Lemma off_step_with_counter env off e state t action :
  let t' :=
    (OffPolicyAlgorithm.step_with Buffer_append env off e state t action).2.2 in
  t' = 0%Z ∨ t' = t.
Proof.
  unfold OffPolicyAlgorithm.step_with.
  destruct (Gym.step env action e) as [e1 [[[ns r] d] info]].
  destruct d; [destruct (Gym.reset env e1)|]; simpl; auto.
Qed.

Lemma off_step_counter env off e state t :
  let t' :=
    (OffPolicyAlgorithm.step explore Buffer_append env off e state t).2.2 in
  t' = 0%Z ∨ t' = (t + 1)%Z.
Proof.
  unfold OffPolicyAlgorithm.step.
  destruct (_ <=? _)%Z.
  - destruct (Gym.action_space_sample env e) as [e0 action].
    apply off_step_with_counter.
  - destruct (OffPolicyAlgorithm.call_explore _ _ state) as [off1 action].
    apply off_step_with_counter.
Qed.

(** X11. The per-episode step count.  Each call of [step], on-policy or
    off-policy, returns either 0 or the count it was given plus one.  So
    in a run of [k] calls that starts from a count [t >= 0] the count
    handed back is never negative and never more than [t + k]. *)
Theorem episode_counter_bounds :
  (∀ (k : nat) env on (e : E) (state : Obs) (t : Z),
     (0 ≤ t)%Z →
     let t' :=
       (OnPolicyActorCritic.steps next _explore RolloutBuffer_append k env on
          e state t).2.2 in
     (0 ≤ t' ≤ t + Z.of_nat k)%Z) ∧
  (∀ (k : nat) env off (e : E) (state : Obs) (t : Z),
     (0 ≤ t)%Z →
     let t' :=
       (OffPolicyAlgorithm.steps explore Buffer_append k env off e state t).2.2 in
     (0 ≤ t' ≤ t + Z.of_nat k)%Z).
Proof.
  split.
  - intros k env on e state t Ht. induction k as [|k IH]; simpl; [lia|].
    simpl in IH.
    destruct (OnPolicyActorCritic.steps next _explore RolloutBuffer_append k
                env on e state t) as [[on1 e1] [s1 t1]].
    simpl in IH.
    destruct (on_step_counter env on1 e1 s1 t1) as [H|H];
      simpl in H; rewrite H; lia.
  - intros k env off e state t Ht. induction k as [|k IH]; simpl; [lia|].
    simpl in IH.
    destruct (OffPolicyAlgorithm.steps explore Buffer_append k env off e
                state t) as [[off1 e1] [s1 t1]].
    simpl in IH.
    destruct (off_step_counter env off1 e1 s1 t1) as [H|H];
      simpl in H; rewrite H; lia.
Qed.

End EpisodeCounter.

Section MoreConstruction.

Context {Rng Tensor Params Buffer G : Type}.
Variable PRNGSequence : Z → Rng.
Variable space_sample : Gym.Space → Tensor.
Variable astype_float32 : Tensor → Tensor.
Variable PrioritizedReplayBuffer_init :
  Z → Gym.Space → Gym.Space → Q → nat → Q → result Buffer.
Variable ReplayBuffer_init :
  Z → Gym.Space → Gym.Space → Q → nat → result Buffer.

(** X12. A zero [update_interval] at construction.  With a valid target
    configuration and a seed numpy accepts ([0 <= seed < 2^32]), the
    off-policy constructor with [use_per] set divides by
    [update_interval] for the anneal length and raises ZeroDivisionError
    before any buffer is built; without [use_per] it builds the object,
    and [is_update()] on that object raises ZeroDivisionError.  With a
    seed numpy refuses, the ValueError of [np.random.seed] comes first,
    with or without [use_per]. *)
Theorem zero_update_interval :
  ∀ (policy : Params) (num_steps : Z) (state_space action_space : Gym.Space)
    (seed : Z) (gamma : Q) (nstep : nat) (buffer_size : Z)
    (batch_size start_steps : Z)
    (update_interval_target : option Z) (tau : option Q),
  let make use_per :=
    OffPolicyAlgorithm.__init__ PRNGSequence space_sample astype_float32
      PrioritizedReplayBuffer_init ReplayBuffer_init policy num_steps
      state_space action_space seed gamma nstep buffer_size use_per batch_size
      start_steps 0%Z update_interval_target tau in
  (truthy_int update_interval_target || truthy_float tau = true →
   (0 ≤ seed < 4294967296)%Z →
   make true = Raise ZeroDivisionError) ∧
  (∀ buffer,
     truthy_int update_interval_target || truthy_float tau = true →
     (0 ≤ seed < 4294967296)%Z →
     ReplayBuffer_init buffer_size state_space action_space gamma nstep =
       Ok buffer →
     ∃ self, make false = Ok self ∧
             OffPolicyAlgorithm.is_update self = Raise ZeroDivisionError) ∧
  (∀ use_per,
     truthy_int update_interval_target || truthy_float tau = true →
     ¬ (0 ≤ seed < 4294967296)%Z →
     make use_per = Raise ValueError).
Proof.
  intros policy num_steps ss acs seed gamma nstep buffer_size batch_size
    start_steps uit tau make.
  subst make. unfold OffPolicyAlgorithm.__init__, Algorithm.__init__.
  split; [|split].
  - intros -> Hseed. simpl. by rewrite decide_True.
  - intros buf -> Hseed Hbuf. simpl. rewrite decide_True by done.
    rewrite Hbuf.
    destruct (truthy_int uit); eexists; split; reflexivity.
  - intros use_per -> Hseed. simpl. by rewrite decide_False.
Qed.

(** X13. Discrete Q-learning always synchronises by hard copy.
    [QLearning.__init__] hands the base class no [tau]: it raises
    AssertionError when [update_interval_target] is [None] or zero, and
    an object it returns has that interval bound, a hard copy
    ([tau = 1.0]) as target update, the two exploration rates as given
    and [env_step = 0]. *)
Theorem qlearning_hard_update_only :
  ∀ (params : Params) (g : G) (num_steps : Z)
    (state_space action_space : Gym.Space) (seed : Z) (gamma : Q) (nstep : nat)
    (buffer_size : Z) (use_per : bool)
    (batch_size start_steps update_interval : Z)
    (update_interval_target : option Z) (eps eps_eval : Q),
  let made :=
    QLearning.__init__ PRNGSequence space_sample astype_float32
      PrioritizedReplayBuffer_init ReplayBuffer_init params g num_steps
      state_space action_space seed gamma nstep buffer_size use_per batch_size
      start_steps update_interval update_interval_target eps eps_eval in
  (truthy_int update_interval_target = false → made = Raise AssertionError) ∧
  (∀ self, made = Ok self →
     truthy_int update_interval_target = true ∧
     OffPolicyAlgorithm.update_interval_target self = update_interval_target ∧
     OffPolicyAlgorithm._update_target self = Some 1%Q ∧
     QLearning.eps (OffPolicyAlgorithm.policy self) = eps ∧
     QLearning.eps_eval (OffPolicyAlgorithm.policy self) = eps_eval ∧
     OffPolicyAlgorithm.env_step self = 0%Z).
Proof.
  intros params g num_steps ss acs seed gamma nstep buffer_size use_per
    batch_size start_steps update_interval uit eps eps_eval made.
  subst made.
  unfold QLearning.__init__, OffPolicyAlgorithm.__init__, Algorithm.__init__.
  split.
  - intros ->. reflexivity.
  - intros self Hmade. destruct (truthy_int uit); [|discriminate].
    simpl in Hmade.
    destruct (decide _); [|discriminate].
    destruct (if use_per then _ else _) as [buf|err]; [|discriminate].
    injection Hmade as <-. done.
Qed.

End MoreConstruction.

Section EpsGreedy.

Context {Rng Params Obs Act G : Type}.
Variable rand : G → Q * G.
Variable sample_action : G → Act * G.
Variable _forward : Params → Obs → Act.

Implicit Type self : QLearning.attrs Params G.

(** X14. The two ends of epsilon-greedy.  [np.random.rand()] draws from
    [[0, 1)].  So with [eps <= 0] the Q-learning [explore] never takes a
    random action: it returns [forward(state)], whatever is drawn; with
    [eps >= 1] it always returns [self.action_space.sample()].
    [select_action] does the same on [eps_eval] and does not read [eps].
    Neither touches the object's key stream. *)
Theorem eps_greedy_extremes :
  (∀ g, (0 <= (rand g).1)%Q ∧ ((rand g).1 < 1)%Q) →
  ∀ self (rng : Rng) (state : Obs),
    let g := (rand (QLearning.np_random self)).2 in
    ((QLearning.eps self <= 0)%Q →
     QLearning.explore rand sample_action _forward self rng state =
       (QLearning.set_np_random g self, rng,
        QLearning.forward _forward self state)) ∧
    ((1 <= QLearning.eps self)%Q →
     QLearning.explore rand sample_action _forward self rng state =
       (QLearning.set_np_random (sample_action g).2 self, rng,
        (sample_action g).1)) ∧
    ((QLearning.eps_eval self <= 0)%Q →
     QLearning.select_action rand sample_action _forward self state =
       (QLearning.set_np_random g self,
        QLearning.forward _forward self state)) ∧
    ((1 <= QLearning.eps_eval self)%Q →
     QLearning.select_action rand sample_action _forward self state =
       (QLearning.set_np_random (sample_action g).2 self,
        (sample_action g).1)) ∧
    (QLearning.explore rand sample_action _forward self rng state).1.2 = rng.
Proof.
  intros Hrange self rng state g.
  destruct (Hrange (QLearning.np_random self)) as [H0 H1].
  unfold QLearning.explore, QLearning.select_action. subst g.
  destruct (rand (QLearning.np_random self)) as [u g]. simpl in *.
  repeat split.
  - intros He. destruct (Qlt_le_dec u (QLearning.eps self)) as [Hlt|Hge];
      [|done].
    exfalso. apply (Qlt_irrefl u).
    eapply Qlt_le_trans; [exact Hlt|]. eapply Qle_trans; eauto.
  - intros He. destruct (Qlt_le_dec u (QLearning.eps self)) as [Hlt|Hge].
    + by destruct (sample_action g).
    + exfalso. apply (Qlt_irrefl u).
      eapply Qlt_le_trans; [exact H1|]. eapply Qle_trans; eauto.
  - intros He. destruct (Qlt_le_dec u (QLearning.eps_eval self)) as [Hlt|Hge];
      [|done].
    exfalso. apply (Qlt_irrefl u).
    eapply Qlt_le_trans; [exact Hlt|]. eapply Qle_trans; eauto.
  - intros He. destruct (Qlt_le_dec u (QLearning.eps_eval self)) as [Hlt|Hge].
    + by destruct (sample_action g).
    + exfalso. apply (Qlt_irrefl u).
      eapply Qlt_le_trans; [exact H1|]. eapply Qle_trans; eauto.
  - destruct (Qlt_le_dec u (QLearning.eps self));
      [by destruct (sample_action g)|done].
Qed.

End EpsGreedy.

Import Examples.

Lemma warm_up_meets_first_update_witness :
  (OffPolicyAlgorithm.env_step toy_off + 1 =
   OffPolicyAlgorithm.start_steps toy_off)%Z ∧
  let out :=
    OffPolicyAlgorithm.step toy_explore toy_append toy_env toy_off 0%Z 0%Z 0%Z in
  (OffPolicyAlgorithm.is_update out.1.1 = Ok true ↔
   OffPolicyAlgorithm.update_interval toy_off ≠ 0%Z ∧
   (OffPolicyAlgorithm.start_steps toy_off
      mod OffPolicyAlgorithm.update_interval toy_off = 0)%Z) ∧
  warm_up out.1.1 = false.
Proof.
  split; [reflexivity|].
  destruct (warm_up_meets_first_update toy_explore toy_append toy_env toy_off
              0%Z 0%Z 0%Z eq_refl) as (_ & _ & Hupd & Hw).
  split; [exact Hupd|exact Hw].
Defined.

Lemma eps_greedy_extremes_witness :
  (∀ g, (0 <= (toy_rand g).1)%Q ∧ ((toy_rand g).1 < 1)%Q) ∧
  QLearning.explore toy_rand toy_sample toy_forward toy_q 5%Z 3%Z =
    (toy_q, 5%Z, 3%Z) ∧
  QLearning.select_action toy_rand toy_sample toy_forward toy_q 3%Z =
    (toy_q, 7%Z).
Proof.
  assert (∀ g, (0 <= (toy_rand g).1)%Q ∧ ((toy_rand g).1 < 1)%Q) as Hrange.
  { intros g. split; [unfold Qle|unfold Qlt]; simpl; lia. }
  split; [exact Hrange|].
  destruct (eps_greedy_extremes toy_rand toy_sample toy_forward Hrange
              toy_q 5%Z 3%Z) as (He & _ & _ & Hs & _).
  split.
  - apply He. unfold Qle. simpl. lia.
  - apply Hs. unfold Qle. simpl. lia.
Defined.

End BaseMore.
